(** * conjunction.py: a shallow embedding and its properties

    The program scans a time window with a fixed step, asks an ephemeris
    for the angular separation of two bodies at every step, keeps the
    running minimum and maximum together with their instants, and prints
    both in degrees, minutes and seconds.

    Modelling conventions.
    - Python [int] is [Z]; Python [str] (a byte string in Python 2) is
      [string].
    - Python [float] and [ephem.Date] (a float counting days) are
      modelled twice.  The whole program ([main] with its scan and its
      report) is modelled over [Q]: every finite binary64 value is a
      rational, comparisons are exact, [math.pi] is the rational value of
      the binary64 constant, and sums and products are not rounded.
      Module [B64] models the scan loop and [ddToDms] on the binary64
      values themselves ([spec_float], rounding to nearest, ties to
      even); which instants are sampled and which digits are printed is
      stated there.
    - The ephemeris ([observer.date = str(t)], [compute],
      [ephem.separation]) is a function from the two bodies and the
      instant to a separation.
    - [while] is a fuelled loop: [None] means the fuel ran out with the
      loop still running. *)

From Stdlib Require Import ZArith QArith Qround Lia Lqa List Bool.
From Stdlib Require Import Strings.Ascii Strings.String DecimalString.
From Stdlib Require DecimalPos.
From Stdlib Require Import SpecFloat.
Import ListNotations.

Local Open Scope string_scope.
Local Open Scope Z_scope.

(* ------------------------------------------------------------------ *)
(** ** Strings, digits and the regular expressions of [strToSeconds] *)

Module Re.

(** The character class [[0-9]]. *)
Definition is_digit (c : ascii) : bool :=
  ((48 <=? nat_of_ascii c) && (nat_of_ascii c <=? 57))%nat.

Definition digit_value (c : ascii) : Z :=
  Z.of_nat (nat_of_ascii c - 48).

Fixpoint all_digits (s : string) : bool :=
  match s with
  | EmptyString => true
  | String c s' => is_digit c && all_digits s'
  end.

(** [int(s)] for a string of decimal digits, most significant first. *)
Fixpoint int_acc (acc : Z) (s : string) : Z :=
  match s with
  | EmptyString => acc
  | String c s' => int_acc (10 * acc + digit_value c) s'
  end.

Definition int (s : string) : Z := int_acc 0 s.

(** The pattern [([0-9]+)u] tried at the first character of [s].  The
    quantifier is greedy: one more digit is taken first, and only when
    the rest of the pattern fails after it does the matcher fall back to
    ending the group here and looking for [u].  The result is group 1. *)
Fixpoint match_here (u : ascii) (s : string) : option string :=
  match s with
  | EmptyString => None
  | String c s' =>
      if is_digit c then
        match match_here u s' with
        | Some g => Some (String c g)
        | None =>
            match s' with
            | String c' _ =>
                if Ascii.eqb c' u then Some (String c EmptyString) else None
            | EmptyString => None
            end
        end
      else None
  end.

(** [re.search("([0-9]+)u", s)]: the match at the leftmost position
    where there is one; the result is [m.group(1)], [None] when there is
    no match. *)
Fixpoint search (u : ascii) (s : string) : option string :=
  match match_here u s with
  | Some g => Some g
  | None =>
      match s with
      | EmptyString => None
      | String _ s' => search u s'
      end
  end.

End Re.

(* ------------------------------------------------------------------ *)
(** ** Duration parser *)

(** One block of [strToSeconds]:
    [m = re.search("([0-9]+)u", s); if m: seconds += int(m.group(1)) * k]. *)
Definition add_unit (u : ascii) (k : Z) (s : string) (seconds : Z) : Z :=
  match Re.search u s with
  | Some g => seconds + Re.int g * k
  | None => seconds
  end.

Definition strToSeconds (s : string) : Z :=
  let seconds := 0 in
  let seconds := add_unit "d" (24 * 60 * 60) s seconds in
  let seconds := add_unit "h" (60 * 60) s seconds in
  let seconds := add_unit "m" 60 s seconds in
  let seconds := add_unit "s" 1 s seconds in
  seconds.

(** [text.replace(" ", "")]. *)
Fixpoint remove_spaces (s : string) : string :=
  match s with
  | EmptyString => EmptyString
  | String c s' =>
      if Ascii.eqb c " " then remove_spaces s'
      else String c (remove_spaces s')
  end.

(* ------------------------------------------------------------------ *)
(** ** Python values and floats *)

(** The values [ddToDms] can be handed or can return. *)
Inductive PyObj : Type :=
| PyFloat (x : Q)
| PyInt (n : Z)
| PyStr (s : string)
| PyNone.

(** [str(type(v))]; an integer outside the 64-bit range is a [long]. *)
Definition type_repr (v : PyObj) : string :=
  match v with
  | PyFloat _ => "<type 'float'>"
  | PyInt n =>
      if (- 2 ^ 63 <=? n) && (n <? 2 ^ 63) then "<type 'int'>"
      else "<type 'long'>"
  | PyStr _ => "<type 'str'>"
  | PyNone => "<type 'NoneType'>"
  end.

(** [str(n)] for an [int]. *)
Definition str_int (n : Z) : string := NilZero.string_of_int (Z.to_int n).

Definition Qltb (x y : Q) : bool := negb (Qle_bool y x).

(** [math.pi]: the binary64 constant 0x400921FB54442D18. *)
Definition math_pi : Q := 884279719003555 # 281474976710656.

(** [math.degrees(x)], computed as [x * (180.0 / pi)]. *)
Definition degrees (x : Q) : Q := (x * (180 / math_pi))%Q.

(** [x % 1.0]: the remainder has the sign of the divisor, so it lies in
    [0, 1). *)
Definition mod1 (x : Q) : Q := (x - inject_Z (Qfloor x))%Q.

(** [round(x, 2)] as a count of hundredths; Python 2 rounds halves away
    from zero. *)
Definition round_hundredths (x : Q) : Z :=
  if Qle_bool 0 x then Qfloor (x * 100 + (1 # 2))%Q
  else - Qfloor (- x * 100 + (1 # 2))%Q.

Definition two_digits (n : Z) : string :=
  if n <? 10 then "0" ++ str_int n else str_int n.

(** [str(x)] for a float [x = k/100]: the shortest decimal form, with at
    least one digit after the point. *)
Definition str_hundredths (k : Z) : string :=
  let a := Z.abs k in
  let sign := if k <? 0 then "-" else "" in
  let f := a mod 100 in
  sign ++ str_int (a / 100) ++ "." ++
  (if f mod 10 =? 0 then str_int (f / 10) else two_digits f).

(** Lines 100-104 of [ddToDms], once [dd] is a float, in exact
    arithmetic: the two products are not rounded ([B64.dms] rounds
    them). *)
Definition dms (dd : Q) : string :=
  let minutes := (mod1 dd * 60)%Q in
  let seconds := (mod1 minutes * 60)%Q in
  str_int (Qfloor dd) ++ " degrees "
  ++ str_int (Qfloor minutes) ++ " minutes "
  ++ str_hundredths (round_hundredths seconds) ++ " seconds".

(* ------------------------------------------------------------------ *)
(** ** Output and exceptions *)

Definition Date := Q.

(** What [--objects] names resolve to. *)
Inductive Body : Type :=
| Solar (name : string)                (* getattr(ephem, name)() *)
| Star (name : string)                 (* ephem.star(name) *)
| FixedBody (ra dec name : string).    (* ephem.FixedBody with _ra, _dec *)

(** A printed line: text the program computes, and the [str] of values
    of the libraries. *)
Inductive Frag : Type :=
| Txt (s : string)
| StrObjects (l : list Body)
| StrObserver
| StrDate (t : Date).

Definition Line := list Frag.

Inductive Exn : Type :=
  TypeError | ValueError | IndexError | OverflowError.

Inductive Result (A : Type) : Type :=
| Ok (a : A)
| Raise (e : Exn)
| Unfinished.          (* the fuel of a loop ran out *)

Arguments Ok {A} a.
Arguments Raise {A} e.
Arguments Unfinished {A}.

(** Programs print lines and return, raise or keep running. *)
Definition Prog (A : Type) : Type := list Line -> list Line * Result A.

Definition ret {A} (a : A) : Prog A := fun out => (out, Ok a).

Definition bind {A B} (m : Prog A) (k : A -> Prog B) : Prog B :=
  fun out =>
    match m out with
    | (out', Ok a) => k a out'
    | (out', Raise e) => (out', Raise e)
    | (out', Unfinished) => (out', Unfinished)
    end.

Definition print (l : Line) : Prog unit := fun out => ((out ++ [l])%list, Ok tt).

Definition raise {A} (e : Exn) : Prog A := fun out => (out, Raise e).

(** A loop that returns [None] when its fuel runs out. *)
Definition lift_option {A} (o : option A) : Prog A :=
  fun out => match o with Some a => (out, Ok a) | None => (out, Unfinished) end.

(** A computation that prints nothing. *)
Definition lift_result {A} (r : Result A) : Prog A := fun out => (out, r).

Notation "x <- m ;; k" := (bind m (fun x => k))
  (at level 61, m at next level, right associativity).
Notation "m ;;; k" := (bind m (fun _ => k))
  (at level 61, right associativity).

(* ------------------------------------------------------------------ *)
(** ** Binary64

    Where the rounding of floats matters (the accumulated [t] of the
    loop, the products of [ddToDms]) the code is modelled on the 64-bit
    floats themselves, as values of [spec_float] with the operations of
    precision 53 and exponent bound 1024, which round to nearest, ties to
    even, as Python's floats do. *)

Module B64.

Definition float : Type := spec_float.
Definition prec : Z := 53.
Definition emax : Z := 1024.

(** [x + y], [x * y], [x / y] and [x < y] on floats. *)
Definition add : float -> float -> float := SFadd prec emax.
Definition mul : float -> float -> float := SFmul prec emax.
Definition div : float -> float -> float := SFdiv prec emax.
Definition ltb : float -> float -> bool := SFltb.

(** The float nearest to an integer, an infinity when it is out of
    range. *)
Definition of_Z (n : Z) : float := binary_normalize prec emax n 0 false.

(** [float(n)] for an [int]: [None] when it raises OverflowError. *)
Definition of_int (n : Z) : option float :=
  match of_Z n with
  | S754_infinity _ => None
  | f => Some f
  end.

(** The rational a finite float stands for; 0 for the others. *)
Definition value (f : float) : Q :=
  match f with
  | S754_finite s m (Zneg p) => cond_Zopp s (Zpos m) # (2 ^ p)
  | S754_finite s m e => inject_Z (cond_Zopp s (Zpos m) * 2 ^ e)
  | _ => 0%Q
  end.

(** [math.pi]. *)
Definition math_pi : float := S754_finite false 7074237752028440 (-51).

(** [int(floor(x))]: an infinity raises OverflowError, a NaN
    ValueError. *)
Definition int_floor (x : float) : Result Z :=
  match x with
  | S754_zero _ => Ok 0
  | S754_finite s m (Zneg p) => Ok (cond_Zopp s (Zpos m) / Zpos (2 ^ p))
  | S754_finite s m e => Ok (cond_Zopp s (Zpos m) * 2 ^ e)
  | S754_infinity _ => Raise OverflowError
  | S754_nan => Raise ValueError
  end.

(** C's [fmod(x, 1.0)]: exact, with the sign of [x]. *)
Definition fmod1 (x : float) : float :=
  match x with
  | S754_finite s m (Zneg p) =>
      match Zpos m mod Zpos (2 ^ p) with
      | Zpos r => S754_finite s r (Zneg p)
      | _ => S754_zero s
      end
  | S754_finite s _ _ => S754_zero s
  | S754_zero s => S754_zero s
  | S754_infinity _ => S754_nan
  | S754_nan => S754_nan
  end.

(** [x % 1.0]: [fmod], moved up by 1.0 when it is negative, and +0.0
    when it is a zero. *)
Definition mod1 (x : float) : float :=
  match fmod1 x with
  | S754_finite true r e => add (S754_finite true r e) (of_Z 1)
  | S754_zero _ => S754_zero false
  | other => other
  end.

(** [str(round(x, 2))]: halves are rounded away from zero on the exact
    value of [x], and the result is printed in its shortest form (for
    values below 10^10). *)
Definition str_round2 (x : float) : string :=
  match x with
  | S754_nan => "nan"
  | S754_infinity false => "inf"
  | S754_infinity true => "-inf"
  | _ => str_hundredths (round_hundredths (value x))
  end.

(** Lines 100-104 of [ddToDms], once [dd] is a float. *)
Definition dms (dd : float) : Result string :=
  let minutes := mul (mod1 dd) (of_Z 60) in
  let seconds := mul (mod1 minutes) (of_Z 60) in
  match int_floor dd with
  | Ok D =>
      match int_floor minutes with
      | Ok M =>
          Ok (str_int D ++ " degrees " ++ str_int M ++ " minutes "
              ++ str_round2 seconds ++ " seconds")
      | Raise e => Raise e
      | Unfinished => Unfinished
      end
  | Raise e => Raise e
  | Unfinished => Unfinished
  end.

(** What [ddToDms] can be handed. *)
Inductive PyArg : Type :=
| AFloat (x : float)
| AInt (n : Z)
| AStr (s : string)
| ANone.

Definition arg_type_repr (v : PyArg) : string :=
  match v with
  | AFloat _ => "<type 'float'>"
  | AInt n =>
      if (- 2 ^ 63 <=? n) && (n <? 2 ^ 63) then "<type 'int'>"
      else "<type 'long'>"
  | AStr _ => "<type 'str'>"
  | ANone => "<type 'NoneType'>"
  end.

Section Formatter.

(** [float(s)] for a [str]: [None] when it raises. *)
Variable float_of_str : string -> option float.

(** [float(v)]: [None] when it raises. *)
Definition to_float (v : PyArg) : option float :=
  match v with
  | AFloat x => Some x
  | AInt n => of_int n
  | AStr s => float_of_str s
  | ANone => None
  end.

(** [ddToDms]: the bare [except] catches whatever [float(dd)] raises;
    what [int(floor(...))] raises is not caught. *)
Definition ddToDms (dd : PyArg) : Prog PyObj :=
  match to_float dd with
  | None =>
      print [Txt (String (ascii_of_nat 10) "ERROR: Could not convert "
                  ++ arg_type_repr dd ++ " to float.")] ;;;
      ret (PyInt 0)
  | Some x => v <- lift_result (dms x) ;; ret (PyStr v)
  end.

End Formatter.

(** The variables of the scan loop; [sampled] is a ghost field as in
    [ScanState]. *)
Record State : Type := mkState {
  cur_t : float;
  cur_min : float * float;
  cur_max : float * float;
  sampled : list float
}.

(** [float(secs) / float(24 * 60 * 60)]; [None] when [float(secs)]
    raises OverflowError. *)
Definition day_fraction (secs : Z) : option float :=
  match of_int secs, of_int (24 * 60 * 60) with
  | Some x, Some d => Some (div x d)
  | _, _ => None
  end.

(** Lines 192, 194, 195. *)
Definition scan_init (start : float) : State :=
  let t := start in
  let min := (mul (of_Z 2) math_pi, t) in
  let max := (of_Z 0, t) in
  mkState t min max [].

Section Scan.

Variable separation : Body -> Body -> float -> float.

(** The body of the [while] loop; [None] when line 208 raises
    OverflowError. *)
Definition scan_step (a b : Body) (resolution : Z) (st : State)
  : option State :=
  let t := cur_t st in
  let sep := separation a b t in
  let min := if ltb sep (fst (cur_min st)) then (sep, t) else cur_min st in
  let max := if ltb (fst (cur_max st)) sep then (sep, t) else cur_max st in
  match day_fraction resolution with
  | Some step => Some (mkState (add t step) min max (sampled st ++ [t])%list)
  | None => None
  end.

Fixpoint scan_loop (fuel : nat) (a b : Body) (end_ : float) (resolution : Z)
  (st : State) : Result State :=
  if ltb (cur_t st) end_ then
    match fuel with
    | O => Unfinished
    | S fuel' =>
        match scan_step a b resolution st with
        | Some st' => scan_loop fuel' a b end_ resolution st'
        | None => Raise OverflowError
        end
    end
  else Ok st.

(** Lines 192-208. *)
Definition scan (fuel : nat) (a b : Body) (start : float)
  (duration resolution : Z) : Result State :=
  match day_fraction duration with
  | Some d => scan_loop fuel a b (add start d) resolution (scan_init start)
  | None => Raise OverflowError
  end.

End Scan.

End B64.

(* ------------------------------------------------------------------ *)
(** ** The program *)

(** The names [getattr(ephem, name)] is used for. *)
Definition solar : list string :=
  ["Sun"; "Moon"; "Mercury"; "Venus"; "Mars"; "Jupiter"; "Saturn";
   "Uranus"; "Neptune"; "Pluto"; "Phobos"; "Deimos"; "Io"; "Europa";
   "Ganymede"; "Callisto"; "Mimas"; "Enceladus"; "Tethys"; "Dione";
   "Rhea"; "Titan"; "Hyperion"; "Iapetus"; "Ariel"; "Umbriel"; "Titania";
   "Oberon"; "Miranda"].

(** [x in l] for a list of strings. *)
Definition py_in (x : string) (l : list string) : bool :=
  existsb (String.eqb x) l.

(** [s.split(sep)] for a one-character separator. *)
Fixpoint split (sep : ascii) (s : string) : list string :=
  match s with
  | EmptyString => [EmptyString]
  | String c s' =>
      if Ascii.eqb c sep then EmptyString :: split sep s'
      else match split sep s' with
           | w :: ws => String c w :: ws
           | [] => [String c EmptyString]
           end
  end.

(** [l[i]]. *)
Definition index {A} (l : list A) (i : nat) : Prog A :=
  match nth_error l i with
  | Some x => ret x
  | None => raise IndexError
  end.

Definition newline : string := String (ascii_of_nat 10) EmptyString.

(** [float(secs) / float(24 * 60 * 60)]: seconds as a fraction of a day. *)
Definition day_fraction (secs : Z) : Q :=
  (inject_Z secs / inject_Z (24 * 60 * 60))%Q.

(** The variables of the scan loop; [sampled] is a ghost field listing,
    oldest first, the instants the ephemeris was asked about. *)
Record ScanState : Type := mkScan {
  cur_t : Date;
  cur_min : Q * Date;
  cur_max : Q * Date;
  sampled : list Date
}.

(** Lines 192, 194, 195: [t = start], [min = (float(2 * math.pi), t)],
    [max = (float(0), t)]. *)
Definition scan_init (start : Date) : ScanState :=
  let t := start in
  let min := ((2 * math_pi)%Q, t) in
  let max := (0%Q, t) in
  mkScan t min max [].

(** The command line after [argparse], with [--start] already turned
    into a date and [--where] into the observer the ephemeris uses. *)
Record Args : Type := mkArgs {
  arg_objects : list string;
  arg_start : Date;
  arg_duration : string;
  arg_resolution : string
}.

Section Program.

(** [float(s)] for a [str]: [None] when it raises. *)
Variable float_of_str : string -> option Q.

(** The star names of [ephem.stars.db]. *)
Variable stars : list string.

(** [observer.date = str(t); a.compute(observer); b.compute(observer);
    float(ephem.separation((a.az, a.alt), (b.az, b.alt)))]. *)
Variable separation : Body -> Body -> Date -> Q.

(** [float(v)]: [None] when it raises; an [int] is rounded to the
    nearest binary64 value and raises when it is out of range. *)
Definition float (v : PyObj) : option Q :=
  match v with
  | PyFloat x => Some x
  | PyInt n => option_map B64.value (B64.of_int n)
  | PyStr s => float_of_str s
  | PyNone => None
  end.

(** The test [type(dd) != 'float'] compares a type with a string and is
    always true, so the conversion is always attempted. *)
Definition ddToDms (dd : PyObj) : Prog PyObj :=
  match float dd with
  | None =>
      print [Txt (newline ++ "ERROR: Could not convert " ++ type_repr dd
                  ++ " to float.")] ;;;
      ret (PyInt 0)
  | Some dd => ret (PyStr (dms dd))
  end.

(** One name of [--objects]; [ra, dec = object.split("/")] raises
    unless there are exactly two parts.  [ephem.star] and the assignments
    to [_ra] and [_dec] are taken to succeed. *)
Definition resolve (object : string) : Result Body :=
  if py_in object solar then Ok (Solar object)
  else if py_in object stars then Ok (Star object)
  else match split "/" object with
       | [ra; dec] => Ok (FixedBody ra dec object)
       | _ => Raise ValueError
       end.

(** [for object in args.objects: ... objects.append(...)]. *)
Fixpoint resolve_all (names : list string) (objects : list Body)
  : Result (list Body) :=
  match names with
  | [] => Ok objects
  | object :: rest =>
      match resolve object with
      | Ok body => resolve_all rest (objects ++ [body])%list
      | Raise e => Raise e
      | Unfinished => Unfinished
      end
  end.

(** The body of the [while] loop, in exact arithmetic: the sum of line
    208 is not rounded ([B64.scan_step] rounds it). *)
Definition scan_step (a b : Body) (resolution : Z) (st : ScanState)
  : ScanState :=
  let t := cur_t st in
  let sep := separation a b t in
  let min := if Qltb sep (fst (cur_min st)) then (sep, t) else cur_min st in
  let max := if Qltb (fst (cur_max st)) sep then (sep, t) else cur_max st in
  mkScan (t + day_fraction resolution)%Q min max (sampled st ++ [t])%list.

(** [while t.real < end.real: ...] with at most [fuel] runs of the body. *)
Fixpoint scan_loop (fuel : nat) (a b : Body) (end_ : Date) (resolution : Z)
  (st : ScanState) : option ScanState :=
  if Qltb (cur_t st) end_ then
    match fuel with
    | O => None
    | S fuel' => scan_loop fuel' a b end_ resolution (scan_step a b resolution st)
    end
  else Some st.

(** Lines 192-208: the seeds and the loop. *)
Definition scan (fuel : nat) (a b : Body) (start : Date)
  (duration resolution : Z) : option ScanState :=
  let end_ := (start + day_fraction duration)%Q in
  scan_loop fuel a b end_ resolution (scan_init start).

(** ["Minimum: " + v]: only a [str] can be appended to a [str]. *)
Definition as_str (v : PyObj) : Prog string :=
  match v with
  | PyStr s => ret s
  | _ => raise TypeError
  end.

(** [if len(objects) != 2: print(... + str(len(object)))].  [object] is
    the loop variable left by the [for] over [args.objects], so the last
    name, or the builtin [object] (which has no [len]) when there was
    none. *)
Definition check_count (objects : list Body) (names : list string)
  : Prog unit :=
  if Nat.eqb (List.length objects) 2 then ret tt
  else match names with
       | [] => raise TypeError
       | n :: ns =>
           let object := last ns n in
           print [Txt ("Can only handle 2 objects: "
                       ++ str_int (Z.of_nat (String.length object)))]
       end.

Definition report (label : string) (rec : Q * Date) : Prog unit :=
  v <- ddToDms (PyFloat (degrees (fst rec))) ;;
  s <- as_str v ;;
  print [Txt (label ++ s ++ " at "); StrDate (snd rec)].

Definition main (fuel : nat) (args : Args) : Prog unit :=
  objects <- lift_result (resolve_all (arg_objects args) []) ;;
  let start := arg_start args in
  let duration := strToSeconds (remove_spaces (arg_duration args)) in
  let resolution := strToSeconds (remove_spaces (arg_resolution args)) in
  print [Txt "--------------- setup ---------------"] ;;;
  print [Txt "   Objects: "; StrObjects objects] ;;;
  print [Txt "  Location: "; StrObserver] ;;;
  print [Txt "Start Time: "; StrDate start] ;;;
  print [Txt ("  Duration: " ++ str_int duration)] ;;;
  print [Txt ("Resolution: " ++ str_int resolution)] ;;;
  check_count objects (arg_objects args) ;;;
  a <- index objects 0 ;;
  b <- index objects 1 ;;
  st <- lift_option (scan fuel a b start duration resolution) ;;
  print [Txt "--------------- results ---------------"] ;;;
  report "Minimum: " (cur_min st) ;;;
  report "Maximum: " (cur_max st).

End Program.

Arguments scan_step separation a b resolution st : simpl never.

(* ------------------------------------------------------------------ *)
(** ** Vocabulary of the properties *)

(** *** Duration strings *)

Inductive TimeUnit : Type := Days | Hours | Minutes | Seconds.

Definition unit_char (u : TimeUnit) : ascii :=
  match u with
  | Days => "d" | Hours => "h" | Minutes => "m" | Seconds => "s"
  end%char.

Definition unit_seconds (u : TimeUnit) : Z :=
  match u with
  | Days => 86400 | Hours => 3600 | Minutes => 60 | Seconds => 1
  end.

(** A unit token [<int>u]: a run of digits and the unit letter. *)
Record Token : Type := mkToken { tok_digits : string; tok_unit : TimeUnit }.

Definition token_text (t : Token) : string :=
  tok_digits t ++ String (unit_char (tok_unit t)) EmptyString.

Fixpoint render (toks : list Token) : string :=
  match toks with
  | [] => EmptyString
  | t :: rest => token_text t ++ render rest
  end.

Definition token_seconds (t : Token) : Z :=
  Re.int (tok_digits t) * unit_seconds (tok_unit t).

Fixpoint total_seconds (toks : list Token) : Z :=
  match toks with
  | [] => 0
  | t :: rest => token_seconds t + total_seconds rest
  end.

Definition well_formed (t : Token) : Prop :=
  tok_digits t <> EmptyString /\ Re.all_digits (tok_digits t) = true.

(** A duration string made of unit tokens, every unit at most once. *)
Definition valid_duration (toks : list Token) : Prop :=
  Forall well_formed toks /\ NoDup (map tok_unit toks).

(** [s] contains the pattern [<int>u]: a digit followed by the letter. *)
Definition has_pattern (u : ascii) (s : string) : Prop :=
  exists pre c post,
    s = pre ++ String c (String u post) /\ Re.is_digit c = true.

(** [has_pattern] as a test. *)
Fixpoint has_patternb (u : ascii) (s : string) : bool :=
  match s with
  | EmptyString => false
  | String c s' =>
      match s' with
      | String c' _ => (Re.is_digit c && Ascii.eqb c' u) || has_patternb u s'
      | EmptyString => false
      end
  end.

(** The digits of the first token with unit [u]. *)
Fixpoint first_of (u : TimeUnit) (toks : list Token) : option string :=
  match toks with
  | [] => None
  | t :: rest =>
      match u, tok_unit t with
      | Days, Days | Hours, Hours | Minutes, Minutes | Seconds, Seconds =>
          Some (tok_digits t)
      | _, _ => first_of u rest
      end
  end.

(** What the unit [u] adds to the total of [toks]. *)
Definition contribution (u : TimeUnit) (toks : list Token) : Z :=
  match first_of u toks with
  | Some g => Re.int g * unit_seconds u
  | None => 0
  end.

(** *** Test doubles for the libraries *)

(** A [float] for strings that reads plain digit strings only. *)
Definition demo_float_of_str (s : string) : option Q :=
  match s with
  | EmptyString => None
  | _ => if Re.all_digits s then Some (inject_Z (Re.int s)) else None
  end.

Definition demo_stars : list string := ["Sirius"; "Vega"; "Polaris"].

(** A synthetic ephemeris: the separation falls from 3 radians at day 0
    towards 0, whatever the two bodies. *)
Definition demo_separation (a b : Body) (t : Date) : Q :=
  (3 / (1 + t * t))%Q.

(** *** The scan *)



Section Reach.

Variable separation : Body -> Body -> Date -> Q.

(** The states the [while] loop passes through from a given one. *)
Inductive reaches (a b : Body) (end_ : Date) (resolution : Z)
  : ScanState -> ScanState -> Prop :=
| reaches_here : forall st, reaches a b end_ resolution st st
| reaches_step : forall st st',
    Qltb (cur_t st) end_ = true ->
    reaches a b end_ resolution (scan_step separation a b resolution st) st' ->
    reaches a b end_ resolution st st'.

End Reach.

(** *** The printed report *)

Definition setup_lines (objects : list Body) (start : Date)
  (duration resolution : Z) : list Line :=
  [ [Txt "--------------- setup ---------------"];
    [Txt "   Objects: "; StrObjects objects];
    [Txt "  Location: "; StrObserver];
    [Txt "Start Time: "; StrDate start];
    [Txt ("  Duration: " ++ str_int duration)];
    [Txt ("Resolution: " ++ str_int resolution)] ].

Definition warning_line (n : Z) : Line :=
  [Txt ("Can only handle 2 objects: " ++ str_int n)].

Definition result_lines (st : ScanState) : list Line :=
  [ [Txt "--------------- results ---------------"];
    [Txt ("Minimum: " ++ dms (degrees (fst (cur_min st))) ++ " at ");
     StrDate (snd (cur_min st))];
    [Txt ("Maximum: " ++ dms (degrees (fst (cur_max st))) ++ " at ");
     StrDate (snd (cur_max st))] ].

(** The seconds [--duration] and [--resolution] stand for. *)
Definition duration_of (args : Args) : Z :=
  strToSeconds (remove_spaces (arg_duration args)).

Definition resolution_of (args : Args) : Z :=
  strToSeconds (remove_spaces (arg_resolution args)).

(** *** A sample run for the test double *)

Definition jupiter : Body := Solar "Jupiter".
Definition moon : Body := Solar "Moon".

(** Two minutes from day 0 in steps of one minute. *)
Definition demo_final : ScanState :=
  Eval vm_compute in
    match scan demo_separation 5 jupiter moon 0%Q 120 60 with
    | Some st => st
    | None => scan_init 0%Q
    end.

(** Ten seconds from day 0 with a step of one minute. *)
Definition demo_single : ScanState :=
  Eval vm_compute in
    match scan demo_separation 5 jupiter moon 0%Q 10 60 with
    | Some st => st
    | None => scan_init 0%Q
    end.

Definition demo_args (objects : list string) (duration resolution : string)
  : Args :=
  mkArgs objects 0%Q duration resolution.

(** *** Duration strings with words *)

Fixpoint no_digits (s : string) : bool :=
  match s with
  | EmptyString => true
  | String c s' => negb (Re.is_digit c) && no_digits s'
  end.

(** Tokens, each followed by a word: the rest of a spelled-out unit, a
    comma, anything without a digit. *)
Fixpoint render_words (tw : list (Token * string)) : string :=
  match tw with
  | [] => EmptyString
  | (t, w) :: rest => token_text t ++ w ++ render_words rest
  end.

Fixpoint has_space (s : string) : bool :=
  match s with
  | EmptyString => false
  | String c s' => Ascii.eqb c " " || has_space s'
  end.

(** *** The records of the scan *)

(** A record [(s, t)] is the earliest extremum of the samples: [t] was
    sampled at some index, [s] is the separation there, and every
    earlier sample is strictly on the other side, [worse] telling how. *)
Definition earliest_at (sep : Date -> Q) (worse : Q -> Q -> Prop)
  (samples : list Date) (rec : Q * Date) : Prop :=
  exists j,
    nth_error samples j = Some (snd rec)
    /\ fst rec = sep (snd rec)
    /\ forall i t, (i < j)%nat -> nth_error samples i = Some t ->
         worse (fst rec) (sep t).

(** What the loop knows about its two records. *)
Definition extrema_invariant (separation : Body -> Body -> Date -> Q)
  (a b : Body) (start : Date) (st : ScanState) : Prop :=
  (forall t, In t (sampled st) ->
     (fst (cur_min st) <= separation a b t)%Q
     /\ (separation a b t <= fst (cur_max st))%Q)
  /\ (cur_min st = ((2 * math_pi)%Q, start)
      \/ earliest_at (separation a b) Qlt (sampled st) (cur_min st))
  /\ (cur_max st = (0%Q, start)
      \/ earliest_at (separation a b) (fun x y => (y < x)%Q) (sampled st)
           (cur_max st))
  /\ (sampled st = [] \/ nth_error (sampled st) 0 = Some start).

(** *** Splitting, and the star names *)

(** The number of occurrences of [c] in [s]. *)
Fixpoint count_char (c : ascii) (s : string) : nat :=
  match s with
  | EmptyString => 0
  | String x s' => (if Ascii.eqb x c then 1 else 0) + count_char c s'
  end.

(** [sep.join(parts)]. *)
Fixpoint join (sep : ascii) (parts : list string) : string :=
  match parts with
  | [] => EmptyString
  | [w] => w
  | w :: rest => w ++ String sep (join sep rest)
  end.

(** Lines 120-123:
    [for star in ephem.stars.db.split("\n"): stars.append(star.split(",")[0])]. *)
Fixpoint first_fields (lines stars : list string) : Result (list string) :=
  match lines with
  | [] => Ok stars
  | star :: rest =>
      match nth_error (split "," star) 0 with
      | Some name => first_fields rest (stars ++ [name])%list
      | None => Raise IndexError
      end
  end.

Definition stars_of_db (db : string) : Result (list string) :=
  first_fields (split (ascii_of_nat 10) db) [].

(** The line of a star data base that gives the name [name]. *)
Definition names_line (line name : string) : Prop :=
  count_char "," name = 0%nat
  /\ (line = name \/ exists rest, line = name ++ String "," rest).

(** The first line of the results block. *)
Definition results_header : Line :=
  [Txt "--------------- results ---------------"].

(** [len(object)] after the loop over [args.objects]: the length of the
    last name. *)
Definition last_name_length (args : Args) : Z :=
  Z.of_nat (String.length (last (arg_objects args) EmptyString)).

(** *** The scan in binary64 *)

(** [secs] seconds as a fraction of a day: the quotient of the two
    nearest floats, rounded. *)
Definition days64 (secs : Z) : spec_float :=
  SFdiv 53 1024 (binary_normalize 53 1024 secs 0 false)
    (binary_normalize 53 1024 86400 0 false).


Section Reach64.

Variable separation : Body -> Body -> B64.float -> B64.float.

(** The states the binary64 loop passes through from a given one. *)
Inductive reaches64 (a b : Body) (end_ : B64.float) (resolution : Z)
  : B64.State -> B64.State -> Prop :=
| reaches64_here : forall st, reaches64 a b end_ resolution st st
| reaches64_step : forall st st1 st',
    SFltb (B64.cur_t st) end_ = true ->
    B64.scan_step separation a b resolution st = Some st1 ->
    reaches64 a b end_ resolution st1 st' ->
    reaches64 a b end_ resolution st st'.

End Reach64.



(** *** The formatter in binary64 *)

(** The float 60.0. *)
Definition sixty : spec_float := S754_finite false 8444249301319680 (-47).

(** The float nearest to 177.55702. *)
Definition documented_maximum : spec_float :=
  S754_finite false 6247232258664185 (-45).

(** Zero or a positive finite float. *)
Definition finite_nonneg (x : spec_float) : bool :=
  match x with
  | S754_zero _ => true
  | S754_finite false _ _ => true
  | _ => false
  end.

(** The decimal digit [d]. *)
Definition digit_char (d : Z) : ascii := ascii_of_nat (48 + Z.to_nat d).

(** The digits after the point of [k] hundredths: the tenths, and the
    hundredths unless they are 0. *)
Definition decimals (k : Z) : string :=
  String (digit_char ((k / 10) mod 10))
    (if k mod 10 =? 0 then "" else String (digit_char (k mod 10)) "").

(** A float in [0, 1), as [x % 1.0] gives it for a non-negative [x]. *)
Definition is_fraction (x : spec_float) : Prop :=
  x = S754_zero false
  \/ exists r p, x = S754_finite false r (Z.neg p) /\ Z.pos r < 2 ^ Z.pos p.

(** A [float(s)] that reads one string. *)
Definition demo_float_of_str64 (s : string) : option spec_float :=
  if String.eqb s "60" then Some sixty else None.

(** The floats nearest to 0.3 and to 9.99999999. *)
Definition three_tenths : spec_float :=
  Eval vm_compute in B64.div (B64.of_Z 3) (B64.of_Z 10).
Definition nearly_ten : spec_float :=
  Eval vm_compute in B64.div (B64.of_Z 999999999) (B64.of_Z 100000000).

(* ================================================================== *)
(** * Properties *)

(* ------------------------------------------------------------------ *)
(** ** Duration parser: proofs *)

Section DurationParser.

Lemma digit_value_nonneg c : 0 <= Re.digit_value c.
Proof. unfold Re.digit_value. lia. Qed.

Lemma int_acc_nonneg s : forall acc, 0 <= acc -> 0 <= Re.int_acc acc s.
Proof.
  induction s as [|c s IH]; intros acc Hacc; cbn [Re.int_acc];
    [exact Hacc|].
  apply IH. pose proof (digit_value_nonneg c). lia.
Qed.

Lemma add_unit_nonneg u k s acc : 0 <= k -> 0 <= acc -> 0 <= add_unit u k s acc.
Proof.
  intros Hk Hacc. unfold add_unit.
  destruct (Re.search u s) as [g|]; [|exact Hacc].
  pose proof (int_acc_nonneg g 0 (Z.le_refl 0)). unfold Re.int. nia.
Qed.

Lemma strToSeconds_nonneg s : 0 <= strToSeconds s.
Proof. unfold strToSeconds. repeat apply add_unit_nonneg; lia. Qed.

(** A digit is none of the unit letters. *)
Lemma digit_not_letter c u :
  Re.is_digit c = true -> Re.is_digit u = false -> Ascii.eqb c u = false.
Proof.
  intros Hc Hu. destruct (Ascii.eqb c u) eqn:E; [|reflexivity].
  apply Ascii.eqb_eq in E. congruence.
Qed.

(** The pattern tried at the start of a digit run that a non-digit
    ends. *)
Lemma match_here_run u ds c rest :
  Re.is_digit u = false ->
  ds <> EmptyString -> Re.all_digits ds = true -> Re.is_digit c = false ->
  Re.match_here u (ds ++ String c rest) =
  if Ascii.eqb c u then Some ds else None.
Proof.
  intros Hu. induction ds as [|d ds IH]; intros Hne Hall Hc; [congruence|].
  simpl in Hall. apply andb_true_iff in Hall as [Hd Hall].
  cbn [append Re.match_here]. rewrite Hd.
  destruct ds as [|d' ds'].
  - cbn [append Re.match_here]. rewrite Hc. reflexivity.
  - rewrite IH by (congruence || assumption).
    destruct (Ascii.eqb c u); [reflexivity|].
    cbn [append]. simpl in Hall. apply andb_true_iff in Hall as [Hd' _].
    rewrite (digit_not_letter d' u Hd' Hu). reflexivity.
Qed.

(** Searching past a digit run ended by another letter. *)
Lemma search_skip u ds c rest :
  Re.is_digit u = false ->
  Re.all_digits ds = true -> Re.is_digit c = false -> Ascii.eqb c u = false ->
  Re.search u (ds ++ String c rest) = Re.search u rest.
Proof.
  intros Hu. induction ds as [|d ds IH]; intros Hall Hc Hcu.
  - cbn [append]. destruct rest; cbn [Re.search Re.match_here]; rewrite Hc;
      reflexivity.
  - assert (Hm : Re.match_here u (String d ds ++ String c rest) = None).
    { rewrite match_here_run by (congruence || assumption).
      rewrite Hcu. reflexivity. }
    simpl in Hall. apply andb_true_iff in Hall as [_ Hall].
    cbn [append] in *. cbn [Re.search]. rewrite Hm. apply IH; assumption.
Qed.

Lemma search_hit u ds rest :
  Re.is_digit u = false ->
  ds <> EmptyString -> Re.all_digits ds = true ->
  Re.search u (ds ++ String u rest) = Some ds.
Proof.
  intros Hu Hne Hall.
  assert (Hm : Re.match_here u (ds ++ String u rest) = Some ds).
  { rewrite match_here_run by assumption. rewrite Ascii.eqb_refl. reflexivity. }
  destruct ds; [congruence|]. cbn [append] in *. cbn [Re.search].
  rewrite Hm. reflexivity.
Qed.

Lemma append_assoc (a b c : string) : (a ++ b) ++ c = a ++ (b ++ c).
Proof. induction a as [|x a IH]; simpl; [reflexivity|]. rewrite IH. reflexivity. Qed.

(** Each of the four searches finds the first token of its unit. *)
Lemma search_render u toks :
  Forall well_formed toks ->
  Re.search (unit_char u) (render toks) = first_of u toks.
Proof.
  induction 1 as [|t rest [Hne Hall] _ IH].
  - destruct u; reflexivity.
  - cbn [render first_of]. unfold token_text. rewrite append_assoc.
    cbn [append].
    destruct u, (tok_unit t) eqn:E; cbn [unit_char];
      solve
        [ apply search_hit; [reflexivity | assumption | assumption]
        | rewrite search_skip by (reflexivity || assumption); exact IH ].
Qed.

Lemma first_of_absent u toks :
  ~ In u (map tok_unit toks) -> first_of u toks = None.
Proof.
  induction toks as [|t rest IH]; intros Hn; [reflexivity|].
  cbn [first_of map In] in *.
  destruct u, (tok_unit t); try (exfalso; apply Hn; left; reflexivity);
    apply IH; intros H; apply Hn; right; exact H.
Qed.

Lemma total_contributions toks :
  NoDup (map tok_unit toks) ->
  total_seconds toks =
  contribution Days toks + contribution Hours toks
  + contribution Minutes toks + contribution Seconds toks.
Proof.
  induction toks as [|t rest IH]; intros Hnd; [reflexivity|].
  cbn [map] in Hnd. inversion Hnd as [|x l Hnotin Hnd' Heq]; subst.
  specialize (IH Hnd'). cbn [total_seconds]. rewrite IH.
  pose proof (first_of_absent _ _ Hnotin) as Habs.
  unfold contribution, token_seconds. cbn [first_of].
  revert Habs. destruct (tok_unit t); intros Habs; rewrite Habs;
    cbn [unit_seconds]; lia.
Qed.

Lemma strToSeconds_contributions toks :
  Forall well_formed toks ->
  strToSeconds (render toks) =
  contribution Days toks + contribution Hours toks
  + contribution Minutes toks + contribution Seconds toks.
Proof.
  intros Hwf. unfold strToSeconds, add_unit.
  rewrite (search_render Days), (search_render Hours),
    (search_render Minutes), (search_render Seconds) by assumption.
  unfold contribution. cbn [unit_seconds].
  destruct (first_of Days toks), (first_of Hours toks),
    (first_of Minutes toks), (first_of Seconds toks); lia.
Qed.

(** A successful search shows the pattern in the text. *)
Lemma match_here_pattern u s g :
  Re.match_here u s = Some g -> has_pattern u s.
Proof.
  revert g. induction s as [|c s IH]; intros g H; [discriminate|].
  cbn [Re.match_here] in H. destruct (Re.is_digit c) eqn:Hc; [|discriminate].
  destruct (Re.match_here u s) as [g'|] eqn:Hm.
  - destruct (IH g' eq_refl) as (pre & c0 & post & -> & Hd).
    exists (String c pre), c0, post. split; [reflexivity|exact Hd].
  - destruct s as [|c' s']; [discriminate|].
    destruct (Ascii.eqb c' u) eqn:E; [|discriminate].
    apply Ascii.eqb_eq in E. subst c'.
    exists EmptyString, c, s'. split; [reflexivity|exact Hc].
Qed.

Lemma search_pattern u s g : Re.search u s = Some g -> has_pattern u s.
Proof.
  revert g. induction s as [|c s IH]; intros g H.
  - discriminate.
  - cbn [Re.search] in H.
    destruct (Re.match_here u (String c s)) as [g'|] eqn:Hm.
    + exact (match_here_pattern _ _ _ Hm).
    + destruct (IH g H) as (pre & c0 & post & -> & Hd).
      exists (String c pre), c0, post. split; [reflexivity|exact Hd].
Qed.

(** And where the pattern occurs the search succeeds. *)
Lemma pattern_search u s : has_pattern u s -> Re.search u s <> None.
Proof.
  intros (pre & c & post & -> & Hd).
  induction pre as [|x pre IH].
  - assert (Hm : Re.match_here u (String c (String u post)) <> None).
    { cbn [Re.match_here]. rewrite Hd.
      destruct (if Re.is_digit u then _ else _); [discriminate|].
      rewrite Ascii.eqb_refl. discriminate. }
    cbn [append Re.search].
    destruct (Re.match_here u (String c (String u post)));
      [discriminate|congruence].
  - cbn [append Re.search].
    destruct (Re.match_here u (String x (pre ++ String c (String u post))));
      [discriminate|exact IH].
Qed.

Lemma has_pattern_test u s : has_pattern u s -> has_patternb u s = true.
Proof.
  intros (pre & c & post & -> & Hd). induction pre as [|x pre IH].
  - cbn [append has_patternb]. rewrite Hd, Ascii.eqb_refl. reflexivity.
  - cbn [append has_patternb].
    destruct (pre ++ String c (String u post)) as [|y rest] eqn:E;
      [discriminate IH|].
    rewrite IH. apply orb_true_r.
Qed.

Lemma strToSeconds_no_pattern s :
  (forall u, ~ has_pattern (unit_char u) s) -> strToSeconds s = 0.
Proof.
  intros Hno. unfold strToSeconds, add_unit.
  assert (Hs : forall u, Re.search (unit_char u) s = None).
  { intros u. destruct (Re.search (unit_char u) s) eqn:E; [|reflexivity].
    exfalso. exact (Hno u (search_pattern _ _ _ E)). }
  pose proof (Hs Days) as Hd. pose proof (Hs Hours) as Hh.
  pose proof (Hs Minutes) as Hm. pose proof (Hs Seconds) as Hsec.
  cbn [unit_char] in Hd, Hh, Hm, Hsec.
  rewrite Hd, Hh, Hm, Hsec. reflexivity.
Qed.

End DurationParser.

Example strToSeconds_mixed : strToSeconds "4s1d3m2h" = 93784.
Proof. reflexivity. Qed.

Example strToSeconds_words :
  strToSeconds (remove_spaces "2 days 3 hours") = 183600.
Proof. reflexivity. Qed.

Example strToSeconds_repeated : strToSeconds "1d2d" = 86400.
Proof. reflexivity. Qed.

(** C6 as stated fails: the spec's sum for ["2d3h"] is off; the parser
    returns 2*86400 + 3*3600 = 183600, not 176400. *)
Lemma strToSeconds_2d3h_not_176400 : strToSeconds "2d3h" <> 176400.
Proof. intros H. vm_compute in H. discriminate H. Qed.

(** C6 (amended): for every duration string made of unit tokens
    [<int>d], [<int>h], [<int>m], [<int>s] in any order, each unit at most
    once, [strToSeconds] returns the sum of the tokens' contributions
    (d*86400 + h*3600 + m*60 + s), absent units adding nothing; ["2d3h"]
    gives 183600; and a string with none of the four patterns gives 0. *)
Theorem strToSeconds_sum :
  (forall toks, valid_duration toks ->
     strToSeconds (render toks) = total_seconds toks)
  /\ strToSeconds "2d3h" = 183600
  /\ strToSeconds "" = 0
  /\ (forall s, (forall u, ~ has_pattern (unit_char u) s) ->
        strToSeconds s = 0).
Proof.
  split; [|split; [reflexivity|split; [reflexivity|]]].
  - intros toks [Hwf Hnd].
    rewrite strToSeconds_contributions by assumption.
    symmetry. apply total_contributions. exact Hnd.
  - exact strToSeconds_no_pattern.
Qed.

Lemma strToSeconds_sum_witness :
  valid_duration [mkToken "3" Hours; mkToken "15" Seconds; mkToken "2" Days]
  /\ strToSeconds "3h15s2d" = 3 * 3600 + 15 + 2 * 86400
  /\ strToSeconds "2 weeks, 4 x" = 0.
Proof.
  assert (V : valid_duration
                [mkToken "3" Hours; mkToken "15" Seconds; mkToken "2" Days]).
  { split.
    - repeat constructor; simpl; discriminate.
    - repeat constructor; simpl; intuition discriminate. }
  split; [exact V|]. split.
  - exact (proj1 strToSeconds_sum _ V).
  - apply (proj2 (proj2 (proj2 strToSeconds_sum))).
    intros u H. apply has_pattern_test in H. destruct u; discriminate H.
Defined.

(* ------------------------------------------------------------------ *)
(** ** Angle formatter: proofs *)

Section Floor.

Local Open Scope Q_scope.

Lemma Qfloor_bounds x : inject_Z (Qfloor x) <= x /\ x < inject_Z (Qfloor x) + 1.
Proof.
  split; [apply Qfloor_le|].
  pose proof (Qlt_floor x) as H. rewrite inject_Z_plus in H. exact H.
Qed.

Lemma Qfloor_unique x n :
  inject_Z n <= x -> x < inject_Z n + 1 -> Qfloor x = n.
Proof.
  intros Hle Hlt.
  pose proof (Qfloor_resp_le _ _ Hle) as H1. rewrite Qfloor_Z in H1.
  destruct (Qfloor_bounds x) as [H2 _].
  assert (H3 : inject_Z (Qfloor x) < inject_Z (n + 1)).
  { rewrite inject_Z_plus. change (inject_Z 1) with 1. lra. }
  rewrite <- Zlt_Qlt in H3. lia.
Qed.

Lemma round_hundredths_nonneg x :
  0 <= x -> round_hundredths x = Qfloor (x * 100 + (1 # 2)).
Proof.
  intros H. unfold round_hundredths.
  apply Qle_bool_iff in H. rewrite H. reflexivity.
Qed.

End Floor.

Section Formatter.

Variable float_of_str : string -> option Q.

(** C8: when [float(dd)] raises, [ddToDms] prints its warning and returns
    the integer 0; it does not raise. *)
Theorem ddToDms_not_a_number :
  forall v out, float float_of_str v = None ->
    ddToDms float_of_str v out
    = ((out ++ [[Txt (newline ++ "ERROR: Could not convert " ++ type_repr v
                      ++ " to float.")]])%list,
       Ok (PyInt 0)).
Proof. intros v out H. unfold ddToDms. rewrite H. reflexivity. Qed.

End Formatter.

Lemma ddToDms_not_a_number_witness :
  float demo_float_of_str (PyStr "north") = None
  /\ ddToDms demo_float_of_str (PyStr "north") []
     = ([[Txt (newline ++ "ERROR: Could not convert <type 'str'> to float.")]],
        Ok (PyInt 0)).
Proof.
  split; [reflexivity|].
  apply (ddToDms_not_a_number demo_float_of_str (PyStr "north") []).
  reflexivity.
Defined.

(* ------------------------------------------------------------------ *)
(** ** The scan loop: proofs *)

Section Dates.

Local Open Scope Q_scope.

Lemma Qltb_true x y : Qltb x y = true <-> x < y.
Proof.
  unfold Qltb. rewrite negb_true_iff. split.
  - intros H. apply Qnot_le_lt. intros Hle.
    apply Qle_bool_iff in Hle. congruence.
  - intros H. destruct (Qle_bool y x) eqn:E; [|reflexivity].
    apply Qle_bool_iff in E. lra.
Qed.

Lemma Qltb_false x y : Qltb x y = false <-> y <= x.
Proof.
  unfold Qltb. rewrite negb_false_iff. apply Qle_bool_iff.
Qed.

Lemma day_fraction_scale z : day_fraction z == inject_Z z * (1 # 86400).
Proof. unfold day_fraction. reflexivity. Qed.

Lemma day_fraction_0 : day_fraction 0 == 0.
Proof. reflexivity. Qed.



Lemma day_fraction_le x y : day_fraction x <= day_fraction y <-> (x <= y)%Z.
Proof. rewrite !day_fraction_scale, Zle_Qle. split; intros H; lra. Qed.





End Dates.

Section Scan.

Variable separation : Body -> Body -> Date -> Q.
Variables a b : Body.
Variable start : Date.
Variables duration resolution : Z.

Let end_ : Date := (start + day_fraction duration)%Q.
Let step := scan_step separation a b resolution.
Let loop (fuel : nat) := scan_loop separation fuel a b end_ resolution.
Let passes := reaches separation a b end_ resolution.

Lemma loop_eq fuel st :
  loop fuel st =
  if Qltb (cur_t st) end_ then
    match fuel with
    | O => None
    | S fuel' => loop fuel' (step st)
    end
  else Some st.
Proof. destruct fuel; reflexivity. Qed.

Lemma step_fields st :
  cur_t (step st) = (cur_t st + day_fraction resolution)%Q
  /\ sampled (step st) = (sampled st ++ [cur_t st])%list
  /\ cur_min (step st)
     = (if Qltb (separation a b (cur_t st)) (fst (cur_min st))
        then (separation a b (cur_t st), cur_t st) else cur_min st)
  /\ cur_max (step st)
     = (if Qltb (fst (cur_max st)) (separation a b (cur_t st))
        then (separation a b (cur_t st), cur_t st) else cur_max st).
Proof. repeat split. Qed.

(** A finished loop went through the states of [reaches] and stopped
    where the condition fails. *)
Lemma loop_reaches fuel : forall st st',
  loop fuel st = Some st' ->
  passes st st' /\ Qltb (cur_t st') end_ = false.
Proof.
  induction fuel as [|fuel IH]; intros st st' H; rewrite loop_eq in H;
    destruct (Qltb (cur_t st) end_) eqn:E; try discriminate.
  - injection H as <-. split; [apply reaches_here|exact E].
  - destruct (IH _ _ H) as [Hr Hc]. split; [|exact Hc].
    eapply reaches_step; eassumption.
  - injection H as <-. split; [apply reaches_here|exact E].
Qed.

(** Invariants of the loop hold in every state it passes through. *)
Lemma passes_invariant (P : ScanState -> Prop) :
  (forall st, P st -> (cur_t st < end_)%Q -> P (step st)) ->
  forall st st', passes st st' -> P st -> P st'.
Proof.
  intros Hstep st st' Hr. induction Hr as [st|st st' Hc _ IH]; intros HP.
  - exact HP.
  - apply IH, Hstep; [exact HP|]. apply Qltb_true. exact Hc.
Qed.




Lemma scan_eq fuel :
  scan separation fuel a b start duration resolution
  = loop fuel (scan_init start).
Proof. reflexivity. Qed.


(** With an empty window the loop body never runs. *)
Lemma loop_empty_window fuel st :
  duration <= 0 -> (cur_t st == start)%Q -> loop fuel st = Some st.
Proof.
  intros Hdur Ht. rewrite loop_eq.
  assert (E : Qltb (cur_t st) end_ = false).
  { apply Qltb_false. unfold end_. rewrite Ht.
    apply day_fraction_le in Hdur. rewrite day_fraction_0 in Hdur. lra. }
  rewrite E. reflexivity.
Qed.

Lemma scan_empty_window fuel :
  duration <= 0 ->
  scan separation fuel a b start duration resolution = Some (scan_init start).
Proof.
  intros H. rewrite scan_eq. apply loop_empty_window; [exact H|reflexivity].
Qed.


Lemma scan_passes fuel st :
  scan separation fuel a b start duration resolution = Some st ->
  passes (scan_init start) st /\ (end_ <= cur_t st)%Q.
Proof.
  rewrite scan_eq. intros H. destruct (loop_reaches _ _ _ H) as [Hr Hc].
  split; [exact Hr|]. apply Qltb_false. exact Hc.
Qed.






End Scan.






(* ------------------------------------------------------------------ *)
(** ** The whole program: proofs *)

Section Main.

Variable float_of_str : string -> option Q.
Variable stars : list string.
Variable separation : Body -> Body -> Date -> Q.

Lemma resolve_all_length names : forall acc objects,
  resolve_all stars names acc = Ok objects ->
  List.length objects = (List.length acc + List.length names)%nat.
Proof.
  induction names as [|n names IH]; intros acc objects H; cbn in H.
  - injection H as <-. cbn. lia.
  - destruct (resolve stars n); try discriminate.
    rewrite (IH _ _ H), length_app. cbn. lia.
Qed.

Lemma report_lines label rec out :
  report float_of_str label rec out
  = ((out ++ [[Txt (label ++ dms (degrees (fst rec)) ++ " at ");
               StrDate (snd rec)]])%list, Ok tt).
Proof. reflexivity. Qed.

(** The run of [main] once the names are resolved. *)
Lemma main_resolved fuel args objects :
  resolve_all stars (arg_objects args) [] = Ok objects ->
  main float_of_str stars separation fuel args []
  = (check_count objects (arg_objects args) ;;;
     a <- index objects 0 ;;
     b <- index objects 1 ;;
     st <- lift_option (scan separation fuel a b (arg_start args)
                          (duration_of args) (resolution_of args)) ;;
     print [Txt "--------------- results ---------------"] ;;;
     report float_of_str "Minimum: " (cur_min st) ;;;
     report float_of_str "Maximum: " (cur_max st))
      (setup_lines objects (arg_start args) (duration_of args)
         (resolution_of args)).
Proof.
  intros H. unfold main, bind at 1, lift_result. rewrite H. reflexivity.
Qed.

Lemma main_scanned fuel a b start duration resolution out :
  (st <- lift_option (scan separation fuel a b start duration resolution) ;;
   print [Txt "--------------- results ---------------"] ;;;
   report float_of_str "Minimum: " (cur_min st) ;;;
   report float_of_str "Maximum: " (cur_max st)) out
  = match scan separation fuel a b start duration resolution with
    | Some st => ((out ++ result_lines st)%list, Ok tt)
    | None => (out, Unfinished)
    end.
Proof.
  unfold bind, lift_option.
  destruct (scan separation fuel a b start duration resolution) as [st|];
    [|reflexivity].
  unfold print. rewrite !report_lines. unfold result_lines.
  rewrite <- !app_assoc. reflexivity.
Qed.

Lemma main_two_objects fuel args a b :
  resolve_all stars (arg_objects args) [] = Ok [a; b] ->
  main float_of_str stars separation fuel args []
  = match scan separation fuel a b (arg_start args) (duration_of args)
            (resolution_of args) with
    | Some st =>
        ((setup_lines [a; b] (arg_start args) (duration_of args)
            (resolution_of args) ++ result_lines st)%list, Ok tt)
    | None =>
        (setup_lines [a; b] (arg_start args) (duration_of args)
           (resolution_of args), Unfinished)
    end.
Proof.
  intros H. rewrite (main_resolved _ _ _ H).
  rewrite <- main_scanned. reflexivity.
Qed.

Lemma check_count_warns objects names out :
  List.length objects <> 2%nat -> names <> [] ->
  exists n, check_count objects names out
            = ((out ++ [warning_line n])%list, Ok tt).
Proof.
  intros Hlen Hnames. unfold check_count.
  apply Nat.eqb_neq in Hlen. rewrite Hlen.
  destruct names as [|n ns]; [congruence|].
  eexists. reflexivity.
Qed.


(** C9 (amended): for every resolved object list with more than two
    entries the program prints a warning and still proceeds, taking the
    first two entries and running the scan on them; with a single entry
    it prints the warning and then stops with an index error at the
    second entry, before the scan. *)
Theorem main_object_count :
  forall fuel args objects,
    resolve_all stars (arg_objects args) [] = Ok objects ->
    (forall a b c rest, objects = a :: b :: c :: rest ->
       exists n,
         main float_of_str stars separation fuel args []
         = match scan separation fuel a b (arg_start args) (duration_of args)
                   (resolution_of args) with
           | Some st =>
               ((setup_lines objects (arg_start args) (duration_of args)
                   (resolution_of args)
                 ++ [warning_line n] ++ result_lines st)%list, Ok tt)
           | None =>
               ((setup_lines objects (arg_start args) (duration_of args)
                   (resolution_of args)
                 ++ [warning_line n])%list, Unfinished)
           end)
    /\ (forall a, objects = [a] ->
          exists n,
            main float_of_str stars separation fuel args []
            = ((setup_lines objects (arg_start args) (duration_of args)
                  (resolution_of args)
                ++ [warning_line n])%list, Raise IndexError)).
Proof.
  intros fuel args objects H.
  pose proof (resolve_all_length _ _ _ H) as Hlen. cbn [List.length] in Hlen.
  split.
  - intros a b c rest ->. cbn [List.length] in Hlen.
    destruct (check_count_warns (a :: b :: c :: rest) (arg_objects args)
                (setup_lines (a :: b :: c :: rest) (arg_start args)
                   (duration_of args) (resolution_of args)))
      as [n Hn].
    + cbn [List.length]. lia.
    + destruct (arg_objects args); [cbn in Hlen; lia|discriminate].
    + exists n. rewrite (main_resolved _ _ _ H).
      unfold bind at 1. rewrite Hn.
      unfold bind at 1. cbn [index nth_error ret].
      unfold bind at 1. cbn [index nth_error ret].
      rewrite main_scanned.
      destruct (scan separation fuel a b (arg_start args) (duration_of args)
                  (resolution_of args)); [|reflexivity].
      rewrite <- app_assoc. reflexivity.
  - intros a ->. cbn [List.length] in Hlen.
    destruct (check_count_warns [a] (arg_objects args)
                (setup_lines [a] (arg_start args)
                   (duration_of args) (resolution_of args)))
      as [n Hn].
    + cbn [List.length]. lia.
    + destruct (arg_objects args); [cbn in Hlen; lia|discriminate].
    + exists n. rewrite (main_resolved _ _ _ H).
      unfold bind at 1. rewrite Hn. reflexivity.
Qed.

(** C10: when the duration is 0 the loop body does not run and the
    program reports the seeds as they are: the minimum record is
    (2 pi, start), printed as 360 degrees, and the maximum record is
    (0, start), so the reported minimum is above the reported maximum. *)
Theorem main_empty_window_reports_seeds :
  forall fuel args a b,
    resolve_all stars (arg_objects args) [] = Ok [a; b] ->
    duration_of args = 0 ->
    exists st,
      scan separation fuel a b (arg_start args) 0 (resolution_of args)
      = Some st
      /\ sampled st = []
      /\ cur_min st = ((2 * math_pi)%Q, arg_start args)
      /\ cur_max st = (0%Q, arg_start args)
      /\ (fst (cur_max st) < fst (cur_min st))%Q
      /\ main float_of_str stars separation fuel args []
         = ((setup_lines [a; b] (arg_start args) 0 (resolution_of args)
             ++ [ [Txt "--------------- results ---------------"];
                  [Txt "Minimum: 360 degrees 0 minutes 0.0 seconds at ";
                   StrDate (arg_start args)];
                  [Txt "Maximum: 0 degrees 0 minutes 0.0 seconds at ";
                   StrDate (arg_start args)] ])%list, Ok tt).
Proof.
  intros fuel args a b H Hd.
  exists (scan_init (arg_start args)).
  assert (E : scan separation fuel a b (arg_start args) 0 (resolution_of args)
              = Some (scan_init (arg_start args)))
    by (apply scan_empty_window; lia).
  split; [exact E|]. repeat (split; [reflexivity|]).
  rewrite (main_two_objects _ _ _ _ H), Hd, E. reflexivity.
Qed.

End Main.



(** C9 as stated fails: with one object the warning is printed, but
    [objects[1]] raises and no scan is run. *)
Lemma main_one_object_no_scan :
  resolve_all demo_stars ["Vega"] [] = Ok [Star "Vega"]
  /\ main demo_float_of_str demo_stars demo_separation 20
       (demo_args ["Vega"] "1m" "10s") []
     = ((setup_lines [Star "Vega"] 0%Q 60 10 ++ [warning_line 4])%list,
        Raise IndexError).
Proof. split; vm_compute; reflexivity. Qed.

Lemma main_object_count_witness :
  resolve_all demo_stars ["Jupiter"; "Moon"; "Vega"; "5:30/-10:00"] []
  = Ok [jupiter; moon; Star "Vega"; FixedBody "5:30" "-10:00" "5:30/-10:00"]
  /\ exists n,
       main demo_float_of_str demo_stars demo_separation 5
         (demo_args ["Jupiter"; "Moon"; "Vega"; "5:30/-10:00"] "10s" "1m") []
       = ((setup_lines
             [jupiter; moon; Star "Vega";
              FixedBody "5:30" "-10:00" "5:30/-10:00"] 0%Q 10 60
           ++ [warning_line n] ++ result_lines demo_single)%list, Ok tt).
Proof.
  assert (H : resolve_all demo_stars
                (arg_objects
                   (demo_args ["Jupiter"; "Moon"; "Vega"; "5:30/-10:00"]
                      "10s" "1m")) []
              = Ok [jupiter; moon; Star "Vega";
                    FixedBody "5:30" "-10:00" "5:30/-10:00"])
    by reflexivity.
  split; [exact H|].
  destruct (proj1 (main_object_count demo_float_of_str demo_stars
                     demo_separation 5
                     (demo_args ["Jupiter"; "Moon"; "Vega"; "5:30/-10:00"]
                        "10s" "1m") _ H) _ _ _ _ eq_refl) as [n Hn].
  exists n. rewrite Hn. vm_compute. reflexivity.
Defined.

Lemma main_empty_window_reports_seeds_witness :
  duration_of (demo_args ["Jupiter"; "Moon"] "0d" "1m") = 0
  /\ main demo_float_of_str demo_stars demo_separation 5
       (demo_args ["Jupiter"; "Moon"] "0d" "1m") []
     = ((setup_lines [jupiter; moon] 0%Q 0 60
         ++ [ [Txt "--------------- results ---------------"];
              [Txt "Minimum: 360 degrees 0 minutes 0.0 seconds at ";
               StrDate 0%Q];
              [Txt "Maximum: 0 degrees 0 minutes 0.0 seconds at ";
               StrDate 0%Q] ])%list, Ok tt).
Proof.
  assert (H : resolve_all demo_stars
                (arg_objects (demo_args ["Jupiter"; "Moon"] "0d" "1m")) []
              = Ok [jupiter; moon]) by reflexivity.
  assert (Hd : duration_of (demo_args ["Jupiter"; "Moon"] "0d" "1m") = 0)
    by reflexivity.
  split; [exact Hd|].
  destruct (main_empty_window_reports_seeds demo_float_of_str demo_stars
              demo_separation 5 _ _ _ H Hd) as (st & _ & _ & _ & _ & _ & Hm).
  exact Hm.
Defined.

(* ------------------------------------------------------------------ *)
(** ** Duration parser: further properties *)

Section DurationWords.

Lemma search_word u w rest :
  no_digits w = true -> Re.search u (w ++ rest) = Re.search u rest.
Proof.
  induction w as [|c w IH]; intros H; [reflexivity|].
  cbn [no_digits] in H. apply andb_true_iff in H as [Hc Hw].
  apply negb_true_iff in Hc.
  cbn [append Re.search Re.match_here]. rewrite Hc. exact (IH Hw).
Qed.

Lemma search_render_words u tw :
  Forall (fun p => well_formed (fst p) /\ no_digits (snd p) = true) tw ->
  Re.search (unit_char u) (render_words tw) = first_of u (map fst tw).
Proof.
  induction 1 as [|[t w] rest [[Hne Hall] Hw] _ IH].
  - destruct u; reflexivity.
  - cbn [render_words map fst snd first_of] in *. unfold token_text.
    rewrite append_assoc. cbn [append].
    destruct u, (tok_unit t) eqn:E; cbn [unit_char];
      solve
        [ apply search_hit; [reflexivity | assumption | assumption]
        | rewrite search_skip by (reflexivity || assumption);
          rewrite search_word by assumption; exact IH ].
Qed.

Lemma first_of_app u l1 l2 :
  first_of u (l1 ++ l2)
  = match first_of u l1 with Some g => Some g | None => first_of u l2 end.
Proof.
  induction l1 as [|t l1 IH]; [reflexivity|].
  cbn [app first_of]. destruct u, (tok_unit t); try reflexivity; exact IH.
Qed.

Lemma first_of_present u toks :
  In u (map tok_unit toks) -> first_of u toks <> None.
Proof.
  induction toks as [|t rest IH]; intros H; [destruct H|].
  cbn [map In first_of] in *.
  destruct H as [H|H].
  - rewrite H. destruct u; discriminate.
  - destruct u, (tok_unit t); try discriminate; exact (IH H).
Qed.

Lemma render_words_plain toks :
  render_words (map (fun t => (t, EmptyString)) toks) = render toks.
Proof.
  induction toks as [|t rest IH]; [reflexivity|].
  cbn [map render_words render append]. rewrite IH. reflexivity.
Qed.

End DurationWords.

(** X1: the parsed duration is never negative, whatever the text. *)
Theorem strToSeconds_never_negative :
  forall s, 0 <= strToSeconds s.
Proof.
  intros s. unfold strToSeconds. repeat apply add_unit_nonneg; lia.
Qed.

(** X2: unit names may be spelled out and tokens may repeat.  For text
    made of a digit-free prefix and tokens that are each followed by a
    digit-free word, every unit counts once, with the digits of its
    first token. *)
Theorem strToSeconds_spelled_out :
  forall w0 tw,
    no_digits w0 = true ->
    Forall (fun p => well_formed (fst p) /\ no_digits (snd p) = true) tw ->
    strToSeconds (w0 ++ render_words tw)
    = contribution Days (map fst tw) + contribution Hours (map fst tw)
      + contribution Minutes (map fst tw) + contribution Seconds (map fst tw).
Proof.
  intros w0 tw Hw0 Htw. unfold strToSeconds, add_unit.
  pose proof (search_render_words Days tw Htw) as Hd.
  pose proof (search_render_words Hours tw Htw) as Hh.
  pose proof (search_render_words Minutes tw Htw) as Hm.
  pose proof (search_render_words Seconds tw Htw) as Hs.
  cbn [unit_char] in Hd, Hh, Hm, Hs.
  rewrite !search_word by exact Hw0. rewrite Hd, Hh, Hm, Hs.
  unfold contribution. cbn [unit_seconds].
  destruct (first_of Days (map fst tw)), (first_of Hours (map fst tw)),
    (first_of Minutes (map fst tw)), (first_of Seconds (map fst tw)); lia.
Qed.

Lemma strToSeconds_spelled_out_witness :
  strToSeconds (remove_spaces "in 2days, 3 hours") = 2 * 86400 + 3 * 3600.
Proof.
  apply (strToSeconds_spelled_out "in" [ (mkToken "2" Days, "ays,");
                                         (mkToken "3" Hours, "ours") ]).
  - reflexivity.
  - repeat constructor; cbn; discriminate.
Defined.

Section DurationMore.

Lemma contribution_repeat u toks t :
  In (tok_unit t) (map tok_unit toks) ->
  contribution u (toks ++ [t]) = contribution u toks.
Proof.
  intros Hin. unfold contribution. rewrite first_of_app.
  destruct (first_of u toks) as [g|] eqn:E; [reflexivity|].
  cbn [first_of].
  destruct u, (tok_unit t) eqn:Et; try reflexivity;
    exfalso; exact (first_of_present _ _ Hin E).
Qed.

Lemma remove_spaces_insert a b :
  remove_spaces (a ++ String " " b) = remove_spaces (a ++ b).
Proof.
  induction a as [|c a IH]; [reflexivity|].
  cbn [append remove_spaces]. rewrite IH. reflexivity.
Qed.

Lemma remove_spaces_clean s : has_space (remove_spaces s) = false.
Proof.
  induction s as [|c s IH]; [reflexivity|].
  cbn [remove_spaces]. destruct (Ascii.eqb c " ") eqn:E; [exact IH|].
  cbn [has_space]. rewrite E, IH. reflexivity.
Qed.

Lemma remove_spaces_none s : has_space s = false -> remove_spaces s = s.
Proof.
  induction s as [|c s IH]; intros H; [reflexivity|].
  cbn [has_space] in H. apply orb_false_iff in H as [Hc Hs].
  cbn [remove_spaces]. rewrite Hc, (IH Hs). reflexivity.
Qed.

(** Decimal digits printed by [str] are read back by [int]. *)
Lemma int_acc_uint d : forall acc,
  Re.int_acc (Zpos acc) (NilEmpty.string_of_uint d)
  = Zpos (Pos.of_uint_acc d acc).
Proof.
  induction d; intros acc; cbn [NilEmpty.string_of_uint Re.int_acc Pos.of_uint_acc];
    try reflexivity; rewrite <- IHd; f_equal;
    rewrite ?Pos2Z.inj_add, ?Pos2Z.inj_mul;
    match goal with
    | |- context [Re.digit_value ?c] =>
        let v := eval vm_compute in (Re.digit_value c) in
        change (Re.digit_value c) with v
    end; lia.
Qed.

Lemma int_uint d :
  Re.int_acc 0 (NilEmpty.string_of_uint d) = Z.of_N (Pos.of_uint d).
Proof.
  induction d; cbn [NilEmpty.string_of_uint Re.int_acc Pos.of_uint];
    try reflexivity; try exact IHd;
    unfold Re.digit_value; cbn [Z.of_N]; rewrite <- int_acc_uint; reflexivity.
Qed.

Lemma all_digits_uint d : Re.all_digits (NilEmpty.string_of_uint d) = true.
Proof. induction d; cbn; try reflexivity; exact IHd. Qed.

Lemma str_int_pos p : str_int (Zpos p) = NilEmpty.string_of_uint (Pos.to_uint p).
Proof.
  unfold str_int. cbn [Z.to_int NilZero.string_of_int].
  unfold NilZero.string_of_uint.
  pose proof (DecimalPos.Unsigned.to_uint_nonnil p) as H.
  destruct (Pos.to_uint p); [congruence|reflexivity..].
Qed.

Lemma str_int_digits n :
  0 <= n ->
  str_int n <> EmptyString /\ Re.all_digits (str_int n) = true
  /\ Re.int (str_int n) = n.
Proof.
  intros Hn. destruct n as [|p|p]; [repeat split; discriminate| |lia].
  rewrite str_int_pos. split; [|split].
  - pose proof (DecimalPos.Unsigned.to_uint_nonnil p) as H.
    destruct (Pos.to_uint p); [congruence|discriminate..].
  - apply all_digits_uint.
  - unfold Re.int. rewrite int_uint, DecimalPos.Unsigned.of_to. reflexivity.
Qed.

End DurationMore.

(** X3: a token whose unit is already present changes nothing: only the
    first token of a unit is counted. *)
Theorem strToSeconds_repeated_unit :
  forall toks t,
    Forall well_formed toks -> well_formed t ->
    In (tok_unit t) (map tok_unit toks) ->
    strToSeconds (render (toks ++ [t])) = strToSeconds (render toks).
Proof.
  intros toks t Hwf Ht Hin.
  rewrite !strToSeconds_contributions;
    [|assumption|apply Forall_app; split; [assumption|constructor; [assumption|constructor]]].
  rewrite !contribution_repeat by exact Hin. reflexivity.
Qed.

Lemma strToSeconds_repeated_unit_witness :
  strToSeconds "1d5h2d" = strToSeconds "1d5h".
Proof.
  apply (strToSeconds_repeated_unit
           [mkToken "1" Days; mkToken "5" Hours] (mkToken "2" Days)).
  - repeat constructor; cbn; discriminate.
  - split; [discriminate|reflexivity].
  - left. reflexivity.
Defined.

(** X4: spaces do not matter to [--duration] and [--resolution]: the
    program removes them all before parsing, so a space put anywhere,
    even between two digits, leaves the seconds unchanged. *)
Theorem duration_ignores_spaces :
  (forall objects start a b resolution,
     duration_of (mkArgs objects start (a ++ String " " b) resolution)
     = duration_of (mkArgs objects start (a ++ b) resolution))
  /\ (forall objects start duration a b,
        resolution_of (mkArgs objects start duration (a ++ String " " b))
        = resolution_of (mkArgs objects start duration (a ++ b)))
  /\ (forall s, has_space (remove_spaces s) = false)
  /\ (forall s, has_space s = false -> remove_spaces s = s).
Proof.
  split; [|split; [|split]].
  - intros. unfold duration_of. cbn [arg_duration].
    rewrite remove_spaces_insert. reflexivity.
  - intros. unfold resolution_of. cbn [arg_resolution].
    rewrite remove_spaces_insert. reflexivity.
  - exact remove_spaces_clean.
  - exact remove_spaces_none.
Qed.

Lemma duration_ignores_spaces_witness :
  has_space "1d12h" = false /\ remove_spaces "1d12h" = "1d12h".
Proof.
  split; [reflexivity|].
  apply (proj2 (proj2 (proj2 duration_ignores_spaces))). reflexivity.
Defined.

(** X5: printing and parsing agree: for non-negative d, h, m and s the
    text "<d>d<h>h<m>m<s>s" written with [str] parses to
    d*86400 + h*3600 + m*60 + s; in particular the seconds the setup
    block prints, followed by "s", parse back to themselves. *)
Theorem strToSeconds_of_str :
  forall d h m s, 0 <= d -> 0 <= h -> 0 <= m -> 0 <= s ->
    strToSeconds (str_int d ++ "d" ++ str_int h ++ "h"
                  ++ str_int m ++ "m" ++ str_int s ++ "s")
    = d * 86400 + h * 3600 + m * 60 + s
    /\ strToSeconds (str_int s ++ "s") = s.
Proof.
  intros d h m s Hd Hh Hm Hs.
  destruct (str_int_digits d Hd) as (Nd & Ad & Id).
  destruct (str_int_digits h Hh) as (Nh & Ah & Ih).
  destruct (str_int_digits m Hm) as (Nm & Am & Im).
  destruct (str_int_digits s Hs) as (Ns & As & Is).
  split.
  - assert (R : render [mkToken (str_int d) Days; mkToken (str_int h) Hours;
                        mkToken (str_int m) Minutes;
                        mkToken (str_int s) Seconds]
                = str_int d ++ "d" ++ str_int h ++ "h"
                  ++ str_int m ++ "m" ++ str_int s ++ "s").
    { cbn [render]. unfold token_text. cbn [tok_digits tok_unit unit_char].
      rewrite !append_assoc. reflexivity. }
    rewrite <- R, strToSeconds_contributions by (repeat constructor; assumption).
    unfold contribution. cbn [first_of tok_unit tok_digits unit_seconds].
    rewrite Id, Ih, Im, Is. lia.
  - assert (R : render [mkToken (str_int s) Seconds] = str_int s ++ "s").
    { cbn [render]. unfold token_text. cbn [tok_digits tok_unit unit_char].
      rewrite !append_assoc. reflexivity. }
    rewrite <- R, strToSeconds_contributions by (repeat constructor; assumption).
    unfold contribution. cbn [first_of tok_unit tok_digits unit_seconds].
    rewrite Is. lia.
Qed.

Lemma strToSeconds_of_str_witness :
  strToSeconds "20d0h30m15s" = 20 * 86400 + 0 * 3600 + 30 * 60 + 15.
Proof.
  assert (H0 : 0 <= 0) by lia. assert (H15 : 0 <= 15) by lia.
  assert (H20 : 0 <= 20) by lia. assert (H30 : 0 <= 30) by lia.
  exact (proj1 (strToSeconds_of_str 20 0 30 15 H20 H0 H30 H15)).
Defined.

(* ------------------------------------------------------------------ *)
(** ** The scan loop: further properties *)

Section Extrema.

Variable separation : Body -> Body -> Date -> Q.
Variables a b : Body.
Variable start : Date.
Variables duration resolution : Z.

Lemma earliest_at_grow sep worse samples rec t :
  earliest_at sep worse samples rec ->
  earliest_at sep worse (samples ++ [t]) rec.
Proof.
  intros (j & Hj & Heq & Hbefore).
  assert (Hlt : (j < List.length samples)%nat)
    by (apply nth_error_Some; congruence).
  exists j. split; [|split; [exact Heq|]].
  - rewrite nth_error_app1 by exact Hlt. exact Hj.
  - intros i t' Hi Hn. rewrite nth_error_app1 in Hn by lia.
    exact (Hbefore i t' Hi Hn).
Qed.

Lemma earliest_at_new sep (worse : Q -> Q -> Prop) samples t :
  (forall t', In t' samples -> worse (sep t) (sep t')) ->
  earliest_at sep worse (samples ++ [t]) (sep t, t).
Proof.
  intros Hall. exists (List.length samples). cbn [fst snd].
  split; [|split; [reflexivity|]].
  - rewrite nth_error_app2 by lia. rewrite Nat.sub_diag. reflexivity.
  - intros i t' Hi Hn. rewrite nth_error_app1 in Hn by exact Hi.
    apply Hall. exact (nth_error_In _ _ Hn).
Qed.

Lemma extrema_invariant_init :
  extrema_invariant separation a b start (scan_init start).
Proof.
  unfold extrema_invariant. cbn [scan_init sampled cur_min cur_max].
  split; [intros t []|]. split; [left; reflexivity|].
  split; [left; reflexivity|left; reflexivity].
Qed.

Lemma extrema_invariant_step st :
  extrema_invariant separation a b start st ->
  (sampled st = [] -> cur_t st = start) ->
  extrema_invariant separation a b start
    (scan_step separation a b resolution st).
Proof.
  intros (Hb & Hmin & Hmax & Hhd) Hfirst.
  destruct (step_fields separation a b resolution st) as (_ & Es & Emin & Emax).
  unfold extrema_invariant. rewrite Es, Emin, Emax. clear Es Emin Emax.
  set (s := separation a b (cur_t st)).
  split; [|split; [|split]].
  - intros t Hin. apply in_app_or in Hin as [Hin|[<-|[]]].
    + destruct (Hb t Hin) as [H1 H2].
      destruct (Qltb s (fst (cur_min st))) eqn:E1;
        destruct (Qltb (fst (cur_max st)) s) eqn:E2; cbn [fst];
        try apply Qltb_true in E1; try apply Qltb_true in E2; split; lra.
    + fold s.
      destruct (Qltb s (fst (cur_min st))) eqn:E1;
        destruct (Qltb (fst (cur_max st)) s) eqn:E2; cbn [fst];
        try apply Qltb_false in E1; try apply Qltb_false in E2; split; lra.
  - destruct (Qltb s (fst (cur_min st))) eqn:E.
    + right. apply earliest_at_new. intros t' Hin. fold s.
      apply Qltb_true in E. destruct (Hb t' Hin) as [H1 _]. lra.
    + destruct Hmin as [Hseed|He]; [left; exact Hseed|right].
      apply earliest_at_grow. exact He.
  - destruct (Qltb (fst (cur_max st)) s) eqn:E.
    + right. apply earliest_at_new. intros t' Hin. fold s.
      apply Qltb_true in E. destruct (Hb t' Hin) as [_ H2]. lra.
    + destruct Hmax as [Hseed|He]; [left; exact Hseed|right].
      apply earliest_at_grow. exact He.
  - right. destruct Hhd as [Hnil|Hhd].
    + rewrite Hnil. cbn [app nth_error]. rewrite (Hfirst Hnil). reflexivity.
    + rewrite nth_error_app1; [exact Hhd|].
      apply nth_error_Some. congruence.
Qed.

Lemma extrema_invariant_passes st :
  reaches separation a b (start + day_fraction duration)%Q resolution
    (scan_init start) st ->
  extrema_invariant separation a b start st.
Proof.
  intros Hr.
  assert (H : extrema_invariant separation a b start st
              /\ (sampled st = [] -> cur_t st = start)).
  { refine (passes_invariant separation a b start duration resolution
              (fun s => extrema_invariant separation a b start s
                        /\ (sampled s = [] -> cur_t s = start))
              _ _ _ Hr _).
    - intros s [Hinv Hfirst] _. split.
      + apply extrema_invariant_step; assumption.
      + destruct (step_fields separation a b resolution s) as (_ & -> & _).
        intros Hnil. destruct (sampled s); discriminate.
    - split; [apply extrema_invariant_init|reflexivity]. }
  exact (proj1 H).
Qed.

(** X9: the records of a finished scan bound what was sampled: every
    sampled separation lies between the minimum and the maximum record,
    and each record is either its untouched seed or the separation at
    its own instant, which is one of the sampled instants. *)
Theorem scan_records_bound_samples :
  forall fuel st,
    scan separation fuel a b start duration resolution = Some st ->
    (forall t, In t (sampled st) ->
       (fst (cur_min st) <= separation a b t)%Q
       /\ (separation a b t <= fst (cur_max st))%Q)
    /\ (cur_min st = ((2 * math_pi)%Q, start)
        \/ (In (snd (cur_min st)) (sampled st)
            /\ fst (cur_min st) = separation a b (snd (cur_min st))))
    /\ (cur_max st = (0%Q, start)
        \/ (In (snd (cur_max st)) (sampled st)
            /\ fst (cur_max st) = separation a b (snd (cur_max st)))).
Proof.
  intros fuel st H. destruct (scan_passes _ _ _ _ _ _ _ _ H) as [Hr _].
  destruct (extrema_invariant_passes _ Hr) as (Hb & Hmin & Hmax & _).
  split; [exact Hb|]. split.
  - destruct Hmin as [Hs|(j & Hj & He & _)]; [left; exact Hs|right].
    split; [exact (nth_error_In _ _ Hj)|exact He].
  - destruct Hmax as [Hs|(j & Hj & He & _)]; [left; exact Hs|right].
    split; [exact (nth_error_In _ _ Hj)|exact He].
Qed.

(** X10: ties go to the earliest instant.  The comparisons are strict,
    so a record that left its seed sits at the first sampled instant
    that reaches its value: every instant sampled before it has a
    strictly larger separation (for the minimum) or a strictly smaller
    one (for the maximum). *)
Theorem scan_records_earliest :
  forall fuel st,
    scan separation fuel a b start duration resolution = Some st ->
    (cur_min st <> ((2 * math_pi)%Q, start) ->
     exists j,
       nth_error (sampled st) j = Some (snd (cur_min st))
       /\ forall i t, (i < j)%nat -> nth_error (sampled st) i = Some t ->
            (fst (cur_min st) < separation a b t)%Q)
    /\ (cur_max st <> (0%Q, start) ->
        exists j,
          nth_error (sampled st) j = Some (snd (cur_max st))
          /\ forall i t, (i < j)%nat -> nth_error (sampled st) i = Some t ->
               (separation a b t < fst (cur_max st))%Q).
Proof.
  intros fuel st H. destruct (scan_passes _ _ _ _ _ _ _ _ H) as [Hr _].
  destruct (extrema_invariant_passes _ Hr) as (_ & Hmin & Hmax & _).
  split; intros Hne.
  - destruct Hmin as [Hs|(j & Hj & _ & Hbefore)]; [congruence|].
    exists j. split; [exact Hj|exact Hbefore].
  - destruct Hmax as [Hs|(j & Hj & _ & Hbefore)]; [congruence|].
    exists j. split; [exact Hj|exact Hbefore].
Qed.


End Extrema.

Lemma scan_records_bound_samples_witness :
  scan demo_separation 5 jupiter moon 0%Q 120 60 = Some demo_final
  /\ (fst (cur_min demo_final) <= demo_separation jupiter moon (60 # 86400))%Q
  /\ (demo_separation jupiter moon (60 # 86400) <= fst (cur_max demo_final))%Q.
Proof.
  assert (E : scan demo_separation 5 jupiter moon 0%Q 120 60 = Some demo_final)
    by (vm_compute; reflexivity).
  split; [exact E|].
  apply (proj1 (scan_records_bound_samples demo_separation jupiter moon 0%Q
                  120 60 5%nat demo_final E)).
  right. left. reflexivity.
Defined.

Lemma scan_records_earliest_witness :
  cur_min demo_final <> ((2 * math_pi)%Q, 0%Q)
  /\ exists j,
       nth_error (sampled demo_final) j = Some (snd (cur_min demo_final))
       /\ forall i t, (i < j)%nat -> nth_error (sampled demo_final) i = Some t ->
            (fst (cur_min demo_final) < demo_separation jupiter moon t)%Q.
Proof.
  assert (E : scan demo_separation 5 jupiter moon 0%Q 120 60 = Some demo_final)
    by (vm_compute; reflexivity).
  assert (Hne : cur_min demo_final <> ((2 * math_pi)%Q, 0%Q))
    by (intros H; vm_compute in H; discriminate H).
  split; [exact Hne|].
  exact (proj1 (scan_records_earliest demo_separation jupiter moon 0%Q
                  120 60 5%nat demo_final E) Hne).
Defined.


(* ------------------------------------------------------------------ *)
(** ** Names, stars and the whole program: further properties *)

Section Splitting.

Lemma split_nonempty sep s : split sep s <> [].
Proof.
  destruct s as [|c s]; cbn [split]; [discriminate|].
  destruct (Ascii.eqb c sep); [discriminate|].
  destruct (split sep s); discriminate.
Qed.

Lemma split_join sep s : join sep (split sep s) = s.
Proof.
  induction s as [|c s IH]; [reflexivity|].
  cbn [split]. pose proof (split_nonempty sep s) as Hne.
  destruct (Ascii.eqb c sep) eqn:E.
  - apply Ascii.eqb_eq in E. subst c.
    destruct (split sep s) as [|w ws]; [congruence|].
    cbn [join append] in *. rewrite IH. reflexivity.
  - destruct (split sep s) as [|w ws]; [congruence|].
    destruct ws; cbn [join append] in *; rewrite IH; reflexivity.
Qed.

Lemma split_length sep s :
  List.length (split sep s) = S (count_char sep s).
Proof.
  induction s as [|c s IH]; [reflexivity|].
  cbn [split count_char]. pose proof (split_nonempty sep s) as Hne.
  destruct (Ascii.eqb c sep).
  - cbn [List.length]. rewrite IH. reflexivity.
  - destruct (split sep s) as [|w ws]; [congruence|].
    cbn [List.length] in *. exact IH.
Qed.

Lemma split_parts sep s :
  Forall (fun w => count_char sep w = 0%nat) (split sep s).
Proof.
  induction s as [|c s IH]; [repeat constructor|].
  cbn [split]. pose proof (split_nonempty sep s) as Hne.
  destruct (Ascii.eqb c sep) eqn:E.
  - constructor; [reflexivity|exact IH].
  - destruct (split sep s) as [|w ws]; [congruence|].
    inversion IH as [|? ? Hw Hws]; subst.
    constructor; [|exact Hws]. cbn [count_char]. rewrite E. exact Hw.
Qed.

End Splitting.

(** X13: the star names.  Building the list never fails, even on an
    empty data base: there is one name per line, in order, and each is
    its line up to the first comma, the whole line when it has none. *)
Theorem stars_of_db_names :
  forall db,
  exists stars,
    stars_of_db db = Ok stars
    /\ List.length stars = S (count_char (ascii_of_nat 10) db)
    /\ Forall2 names_line (split (ascii_of_nat 10) db) stars.
Proof.
  intros db. unfold stars_of_db.
  assert (G : forall lines acc,
            exists names,
              first_fields lines acc = Ok (acc ++ names)%list
              /\ Forall2 names_line lines names).
  { induction lines as [|line rest IH]; intros acc.
    - exists []. rewrite app_nil_r. split; [reflexivity|constructor].
    - cbn [first_fields].
      pose proof (split_nonempty "," line) as Hne.
      pose proof (split_join "," line) as Hj.
      pose proof (split_parts "," line) as Hp.
      destruct (split "," line) as [|name ws]; [congruence|].
      cbn [nth_error].
      destruct (IH (acc ++ [name])%list) as (names & E & HF).
      exists (name :: names). rewrite E, <- app_assoc. split; [reflexivity|].
      constructor; [|exact HF].
      split; [exact (Forall_inv Hp)|].
      destruct ws as [|w ws]; cbn [join] in Hj.
      + left. symmetry. exact Hj.
      + right. eexists. symmetry. exact Hj. }
  destruct (G (split (ascii_of_nat 10) db) []) as (names & E & HF).
  exists names. cbn [app] in E. split; [exact E|]. split; [|exact HF].
  rewrite <- (Forall2_length HF). apply split_length.
Qed.

Section MainMore.

Variable float_of_str : string -> option Q.
Variable stars : list string.
Variable separation : Body -> Body -> Date -> Q.

Lemma resolve_all_ok names : forall acc objects,
  resolve_all stars names acc = Ok objects <->
  exists tail, objects = (acc ++ tail)%list
               /\ Forall2 (fun n o => resolve stars n = Ok o) names tail.
Proof.
  induction names as [|n names IH]; intros acc objects; cbn [resolve_all].
  - split.
    + intros [= <-]. exists []. rewrite app_nil_r. split; [reflexivity|constructor].
    + intros (tail & -> & HF). inversion HF. rewrite app_nil_r. reflexivity.
  - destruct (resolve stars n) as [body| |] eqn:E.
    + rewrite IH. split.
      * intros (tail & -> & HF). exists (body :: tail).
        rewrite <- app_assoc. split; [reflexivity|constructor; assumption].
      * intros (tail & -> & HF). inversion HF as [|? o ? tl Ho HF']; subst.
        assert (o = body) by congruence. subst o.
        exists tl. rewrite <- app_assoc. split; [reflexivity|exact HF'].
    + split; [discriminate|]. intros (tail & _ & HF).
      inversion HF; subst. congruence.
    + split; [discriminate|]. intros (tail & _ & HF).
      inversion HF; subst. congruence.
Qed.

Lemma last_default {A} (l : list A) (d d' : A) :
  l <> [] -> last l d = last l d'.
Proof.
  induction l as [|x l IH]; intros H; [congruence|].
  destruct l as [|y l]; [reflexivity|].
  cbn [last] in *. apply IH. discriminate.
Qed.

Lemma last_cons {A} (x : A) (l : list A) (d : A) : last (x :: l) d = last l x.
Proof.
  destruct l as [|y l]; [reflexivity|].
  change (last (x :: y :: l) d) with (last (y :: l) d).
  apply last_default. discriminate.
Qed.

(** Every way [main] can run. *)
Lemma main_cases fuel args :
  let out := main float_of_str stars separation fuel args [] in
  let setup objects :=
    setup_lines objects (arg_start args) (duration_of args)
      (resolution_of args) in
  match resolve_all stars (arg_objects args) [] with
  | Raise e => out = ([], Raise e)
  | Unfinished => out = ([], Unfinished)
  | Ok [] => out = (setup [], Raise TypeError)
  | Ok [a] =>
      out = ((setup [a] ++ [warning_line (last_name_length args)])%list,
             Raise IndexError)
  | Ok ((a :: b :: rest) as objects) =>
      let warning :=
        match rest with
        | [] => []
        | _ => [warning_line (last_name_length args)]
        end in
      match scan separation fuel a b (arg_start args) (duration_of args)
              (resolution_of args) with
      | Some st =>
          out = ((setup objects ++ warning ++ result_lines st)%list, Ok tt)
      | None => out = ((setup objects ++ warning)%list, Unfinished)
      end
  end.
Proof.
  cbv zeta.
  destruct (resolve_all stars (arg_objects args) []) as [objects|e|] eqn:H;
    [|unfold main, bind, lift_result; rewrite H; reflexivity..].
  pose proof (resolve_all_length _ _ _ _ H) as Hlen. cbn [List.length] in Hlen.
  assert (Hw : arg_objects args <> [] ->
               forall out,
                 List.length objects <> 2%nat ->
                 check_count objects (arg_objects args) out
                 = ((out ++ [warning_line (last_name_length args)])%list,
                    Ok tt)).
  { intros Hne out Hl. unfold check_count, last_name_length.
    apply Nat.eqb_neq in Hl. rewrite Hl.
    destruct (arg_objects args) as [|n ns]; [congruence|].
    rewrite last_cons. reflexivity. }
  destruct objects as [|a [|b rest]].
  - rewrite (main_resolved _ _ _ _ _ _ H).
    destruct (arg_objects args); [reflexivity|discriminate].
  - rewrite (main_resolved _ _ _ _ _ _ H).
    unfold bind at 1. rewrite Hw; [reflexivity| |cbn; lia].
    destruct (arg_objects args); [discriminate|discriminate].
  - assert (Hne : arg_objects args <> [])
      by (destruct (arg_objects args); discriminate).
    destruct rest as [|c rest];
      destruct (scan separation fuel a b (arg_start args) (duration_of args)
                  (resolution_of args)) as [st|] eqn:Es.
    + rewrite (main_two_objects _ _ _ _ _ _ _ H), Es. reflexivity.
    + rewrite (main_two_objects _ _ _ _ _ _ _ H), Es, app_nil_r. reflexivity.
    + rewrite (main_resolved _ _ _ _ _ _ H).
      unfold bind at 1. rewrite (Hw Hne) by (cbn; lia).
      unfold bind at 1. cbn [index nth_error ret].
      unfold bind at 1. cbn [index nth_error ret].
      rewrite main_scanned, Es, <- app_assoc. reflexivity.
    + rewrite (main_resolved _ _ _ _ _ _ H).
      unfold bind at 1. rewrite (Hw Hne) by (cbn; lia).
      unfold bind at 1. cbn [index nth_error ret].
      unfold bind at 1. cbn [index nth_error ret].
      rewrite main_scanned, Es. reflexivity.
Qed.

Lemma header_not_in_setup objects start duration resolution :
  ~ In results_header (setup_lines objects start duration resolution).
Proof.
  unfold setup_lines, results_header. cbn [In append].
  intros H. repeat (destruct H as [H|H]; [discriminate H|]). exact H.
Qed.

Lemma header_not_warning n : warning_line n <> results_header.
Proof. unfold warning_line, results_header. cbn [append]. discriminate. Qed.

Lemma header_in_results st : In results_header (result_lines st).
Proof. left. reflexivity. Qed.

(** X15: the resolved list has one body per name, in the order of the
    command line: resolving all names succeeds exactly when every name
    resolves, and gives those bodies. *)
Theorem resolve_all_in_order :
  forall names objects,
    resolve_all stars names [] = Ok objects <->
    Forall2 (fun n o => resolve stars n = Ok o) names objects.
Proof.
  intros names objects. rewrite resolve_all_ok. split.
  - intros (tail & -> & HF). exact HF.
  - intros HF. exists objects. split; [reflexivity|exact HF].
Qed.

(** X17: with no object name at all the setup block is printed and the
    program then fails with a TypeError while building the warning
    ([object] is still the builtin): no warning, no scan, no results. *)
Theorem main_without_objects :
  forall fuel args,
    arg_objects args = [] ->
    main float_of_str stars separation fuel args []
    = (setup_lines [] (arg_start args) (duration_of args)
         (resolution_of args), Raise TypeError).
Proof.
  intros fuel args H. pose proof (main_cases fuel args) as Hc.
  cbv zeta in Hc. rewrite H in Hc. exact Hc.
Qed.

(** X18: the number in the warning is the number of characters of the
    last name, not the number of objects: whenever the names resolve to
    one body or to more than two, the seventh printed line is the
    warning with that length. *)
Theorem main_warning_number :
  forall fuel args objects,
    resolve_all stars (arg_objects args) [] = Ok objects ->
    objects <> [] -> List.length objects <> 2%nat ->
    nth_error (fst (main float_of_str stars separation fuel args [])) 6
    = Some (warning_line (last_name_length args)).
Proof.
  intros fuel args objects H Hne Hlen.
  pose proof (main_cases fuel args) as Hc. cbv zeta in Hc. rewrite H in Hc.
  destruct objects as [|a [|b [|c rest]]]; try congruence.
  - rewrite Hc. reflexivity.
  - cbn in Hlen. congruence.
  - destruct (scan separation fuel a b (arg_start args) (duration_of args)
                (resolution_of args)); rewrite Hc; reflexivity.
Qed.

(** X19: no partial results.  The results header is printed exactly in
    the runs that end normally, and those runs end with the header and
    both result lines of a finished scan of the first two bodies. *)
Theorem main_results_or_nothing :
  forall fuel args,
    (In results_header (fst (main float_of_str stars separation fuel args []))
     <-> snd (main float_of_str stars separation fuel args []) = Ok tt)
    /\ (snd (main float_of_str stars separation fuel args []) = Ok tt ->
        exists a b rest st pre,
          resolve_all stars (arg_objects args) [] = Ok (a :: b :: rest)
          /\ scan separation fuel a b (arg_start args) (duration_of args)
               (resolution_of args) = Some st
          /\ fst (main float_of_str stars separation fuel args [])
             = (pre ++ result_lines st)%list
          /\ ~ In results_header pre).
Proof.
  intros fuel args. pose proof (main_cases fuel args) as Hc. cbv zeta in Hc.
  destruct (resolve_all stars (arg_objects args) []) as [objects|e|] eqn:H.
  - destruct objects as [|a [|b rest]].
    + rewrite Hc. cbn [fst snd]. split; [split|]; try discriminate.
      intros Hin. destruct (header_not_in_setup _ _ _ _ Hin).
    + rewrite Hc. cbn [fst snd]. split; [split|]; try discriminate.
      intros Hin. apply in_app_or in Hin as [Hin|[Hin|[]]].
      * destruct (header_not_in_setup _ _ _ _ Hin).
      * destruct (header_not_warning _ Hin).
    + set (warning := match rest with
                      | [] => []
                      | _ => [warning_line (last_name_length args)]
                      end) in Hc.
      assert (Hpre : ~ In results_header
                       (setup_lines (a :: b :: rest) (arg_start args)
                          (duration_of args) (resolution_of args)
                        ++ warning)%list).
      { intros Hin. apply in_app_or in Hin as [Hin|Hin].
        - destruct (header_not_in_setup _ _ _ _ Hin).
        - unfold warning in Hin. destruct rest; [destruct Hin|].
          destruct Hin as [Hin|[]]. destruct (header_not_warning _ Hin). }
      destruct (scan separation fuel a b (arg_start args) (duration_of args)
                  (resolution_of args)) as [st|] eqn:Es;
        rewrite Hc; cbn [fst snd].
      * split; [split; [reflexivity|]|].
        -- intros _. apply in_or_app. right. apply in_or_app. right.
           apply header_in_results.
        -- intros _. exists a, b, rest, st, (setup_lines (a :: b :: rest)
                            (arg_start args) (duration_of args)
                            (resolution_of args) ++ warning)%list.
           split; [reflexivity|]. split; [exact Es|].
           split; [rewrite <- app_assoc; reflexivity|exact Hpre].
      * split; [split|]; try discriminate.
        intros Hin. destruct (Hpre Hin).
  - rewrite Hc. cbn [fst snd]. split; [split|]; try discriminate.
    intros [].
  - rewrite Hc. cbn [fst snd]. split; [split|]; try discriminate.
    intros [].
Qed.

End MainMore.

Lemma resolve_all_in_order_witness :
  resolve_all demo_stars ["Jupiter"; "Vega"] [] = Ok [jupiter; Star "Vega"].
Proof.
  apply (proj2 (resolve_all_in_order demo_stars ["Jupiter"; "Vega"]
                  [jupiter; Star "Vega"])).
  repeat constructor.
Defined.

Lemma main_without_objects_witness :
  main demo_float_of_str demo_stars demo_separation 5
    (demo_args [] "1d" "1m") []
  = (setup_lines [] 0%Q 86400 60, Raise TypeError).
Proof.
  exact (main_without_objects demo_float_of_str demo_stars demo_separation 5
           (demo_args [] "1d" "1m") eq_refl).
Defined.

Lemma main_warning_number_witness :
  nth_error
    (fst (main demo_float_of_str demo_stars demo_separation 5
            (demo_args ["Jupiter"; "Moon"; "Vega"] "10s" "1m") [])) 6
  = Some (warning_line 4).
Proof.
  apply (main_warning_number demo_float_of_str demo_stars demo_separation 5
           (demo_args ["Jupiter"; "Moon"; "Vega"] "10s" "1m")
           [jupiter; moon; Star "Vega"]).
  - reflexivity.
  - discriminate.
  - cbn. discriminate.
Defined.

Lemma main_results_or_nothing_witness :
  snd (main demo_float_of_str demo_stars demo_separation 5
         (demo_args ["Jupiter"; "Moon"] "10s" "1m") []) = Ok tt
  /\ In results_header
       (fst (main demo_float_of_str demo_stars demo_separation 5
               (demo_args ["Jupiter"; "Moon"] "10s" "1m") [])).
Proof.
  assert (E : snd (main demo_float_of_str demo_stars demo_separation 5
                     (demo_args ["Jupiter"; "Moon"] "10s" "1m") []) = Ok tt)
    by (vm_compute; reflexivity).
  split; [exact E|].
  exact (proj2 (proj1 (main_results_or_nothing demo_float_of_str demo_stars
                         demo_separation 5
                         (demo_args ["Jupiter"; "Moon"] "10s" "1m"))) E).
Defined.

(* ------------------------------------------------------------------ *)
(** ** The search for a unit: which digits are read *)

Section WholeRun.

Lemma match_here_sound u s : forall g,
  Re.match_here u s = Some g ->
  exists post,
    s = g ++ String u post /\ g <> EmptyString /\ Re.all_digits g = true.
Proof.
  induction s as [|c s IH]; intros g H; [discriminate|].
  cbn [Re.match_here] in H. destruct (Re.is_digit c) eqn:Hc; [|discriminate].
  destruct (Re.match_here u s) as [g'|] eqn:Hm.
  - injection H as <-. destruct (IH g' eq_refl) as (post & -> & _ & Hall).
    exists post. split; [reflexivity|]. split; [discriminate|].
    cbn [Re.all_digits]. rewrite Hc, Hall. reflexivity.
  - destruct s as [|c' s']; [discriminate|].
    destruct (Ascii.eqb c' u) eqn:E; [|discriminate].
    apply Ascii.eqb_eq in E. subst c'. injection H as <-.
    exists s'. split; [reflexivity|]. split; [discriminate|].
    cbn [Re.all_digits]. rewrite Hc. reflexivity.
Qed.

Lemma no_pattern_empty u : ~ has_pattern u EmptyString.
Proof. intros (pre & c & post & H & _). destruct pre; discriminate H. Qed.

Lemma search_located u s : forall g,
  Re.is_digit u = false ->
  Re.search u s = Some g ->
  exists pre post,
    s = pre ++ g ++ String u post
    /\ g <> EmptyString /\ Re.all_digits g = true
    /\ ~ has_pattern u pre
    /\ (forall pre' c, pre = pre' ++ String c EmptyString ->
          Re.is_digit c = false).
Proof.
  intros g Hu. induction s as [|c s IH]; intros H; [discriminate|].
  cbn [Re.search] in H.
  destruct (Re.match_here u (String c s)) as [g0|] eqn:Hm.
  - injection H as ->.
    destruct (match_here_sound _ _ _ Hm) as (post & Hs & Hne & Hall).
    exists EmptyString, post. cbn [append].
    split; [exact Hs|]. split; [exact Hne|]. split; [exact Hall|].
    split; [apply no_pattern_empty|].
    intros pre' x E. destruct pre'; discriminate E.
  - destruct (IH H) as (pre & post & Hs & Hne & Hall & Hno & Hlast).
    exists (String c pre), post. cbn [append].
    split; [rewrite <- Hs; reflexivity|]. split; [exact Hne|]. split; [exact Hall|].
    split.
    + intros (p & x & q & E & Hx). destruct p as [|y p]; cbn [append] in E.
      * injection E as E1 E2. subst c pre. rewrite Hs in Hm.
        cbn [append Re.match_here] in Hm. rewrite Hx, Hu, Ascii.eqb_refl in Hm.
        discriminate Hm.
      * injection E as _ E. apply Hno. exists p, x, q. split; assumption.
    + intros pre' x E. destruct pre' as [|y pre']; cbn [append] in E.
      * injection E as E1 E2. subst c pre.
        destruct (Re.is_digit x) eqn:Hx; [|reflexivity].
        cbn [append] in Hs. rewrite Hs in Hm.
        cbn [Re.match_here] in Hm. rewrite Hx in Hm.
        rewrite match_here_run in Hm by assumption.
        rewrite Ascii.eqb_refl in Hm. discriminate Hm.
      * injection E as _ E. exact (Hlast _ _ E).
Qed.

End WholeRun.

(** X21: which number a unit gets.  When the text holds a number
    followed by a unit letter, the number read is the first such one,
    with all its digits: it starts where the digits start (the character
    before it is no digit) and no digit followed by the letter occurs
    to its left. *)
Theorem strToSeconds_first_whole_number :
  forall unit s,
    has_pattern (unit_char unit) s ->
    exists pre g post,
      s = pre ++ g ++ String (unit_char unit) post
      /\ g <> EmptyString /\ Re.all_digits g = true
      /\ ~ has_pattern (unit_char unit) pre
      /\ (forall pre' c, pre = pre' ++ String c EmptyString ->
            Re.is_digit c = false)
      /\ forall seconds,
           add_unit (unit_char unit) (unit_seconds unit) s seconds
           = seconds + Re.int g * unit_seconds unit.
Proof.
  intros unit s Hp.
  destruct (Re.search (unit_char unit) s) as [g|] eqn:E;
    [|destruct (pattern_search _ _ Hp E)].
  assert (Hu : Re.is_digit (unit_char unit) = false)
    by (destruct unit; reflexivity).
  destruct (search_located _ _ _ Hu E) as (pre & post & H).
  exists pre, g, post. repeat (split; [apply H|]).
  intros seconds. unfold add_unit. rewrite E. reflexivity.
Qed.

Lemma strToSeconds_first_whole_number_witness :
  exists pre g post,
    "x7 12h 3h" = pre ++ g ++ String "h" post
    /\ ~ has_pattern "h" pre
    /\ add_unit "h" 3600 "x7 12h 3h" 0 = 0 + Re.int g * 3600.
Proof.
  assert (Hp : has_pattern (unit_char Hours) "x7 12h 3h")
    by (exists "x7 1", "2"%char, " 3h"; split; reflexivity).
  destruct (strToSeconds_first_whole_number Hours "x7 12h 3h" Hp)
    as (pre & g & post & Hs & _ & _ & Hno & _ & Hadd).
  exists pre, g, post. split; [exact Hs|]. split; [exact Hno|].
  exact (Hadd 0).
Defined.

(* ------------------------------------------------------------------ *)
(** ** Rounding in binary64 *)

Lemma digits2_size p : digits2_pos p = Pos.size p.
Proof. induction p as [p IH|p IH|]; cbn; rewrite ?IH; reflexivity. Qed.

Lemma Zdigits2_nonneg m : 0 <= Zdigits2 m.
Proof. destruct m; cbn; lia. Qed.

(** A mantissa is below 2 to the number of its digits. *)
Lemma Zdigits2_gt m : 0 <= m -> m < 2 ^ Zdigits2 m.
Proof.
  destruct m as [|q|q]; intros H; cbn [Zdigits2]; [reflexivity| |lia].
  rewrite digits2_size. pose proof (Pos.size_gt q) as Hq.
  rewrite <- Pos2Z.inj_pow. lia.
Qed.

Lemma Zdigits2_le m k : 0 <= k -> 0 <= m < 2 ^ k -> Zdigits2 m <= k.
Proof.
  destruct m as [|q|q]; intros Hk [H0 H]; cbn [Zdigits2]; [exact Hk| |lia].
  rewrite digits2_size. pose proof (Pos.size_le q) as Hq.
  assert (Hp : 2 ^ Z.pos (Pos.size q) <= 2 * Z.pos q).
  { rewrite <- Pos2Z.inj_pow. change (2 * Z.pos q) with (Z.pos q~0). lia. }
  assert (Hlt : 2 ^ Z.pos (Pos.size q) < 2 ^ (k + 1)).
  { rewrite Z.pow_add_r by lia. change (2 ^ 1) with 2. lia. }
  apply Z.pow_lt_mono_r_iff in Hlt; lia.
Qed.

Lemma shr_1_m mrs : 0 <= shr_m mrs -> shr_m (shr_1 mrs) = shr_m mrs / 2.
Proof.
  destruct mrs as [m r s]. cbn [shr_m shr_1]. intros H.
  destruct m as [|[q|q|]|q]; cbn [shr_m]; try lia.
  - reflexivity.
  - rewrite Pos2Z.inj_xI. apply Z.div_unique with 1; lia.
  - rewrite Pos2Z.inj_xO. apply Z.div_unique with 0; lia.
  - reflexivity.
Qed.

Lemma iter_shr_1_m p : forall mrs,
  0 <= shr_m mrs ->
  shr_m (iter_pos shr_1 p mrs) = shr_m mrs / 2 ^ Z.pos p.
Proof.
  induction p as [p IH|p IH|]; intros mrs H; cbn [iter_pos].
  - assert (H1 : 0 <= shr_m (shr_1 mrs))
      by (rewrite shr_1_m by exact H; apply Z.div_pos; lia).
    assert (H2 : 0 <= shr_m (iter_pos shr_1 p (shr_1 mrs)))
      by (rewrite IH by exact H1; apply Z.div_pos; lia).
    rewrite IH by exact H2. rewrite IH by exact H1. rewrite shr_1_m by exact H.
    rewrite !Z.div_div by lia. f_equal.
    replace (Z.pos p~1) with (1 + Z.pos p + Z.pos p) by lia.
    rewrite !Z.pow_add_r by lia. change (2 ^ 1) with 2. lia.
  - assert (H2 : 0 <= shr_m (iter_pos shr_1 p mrs))
      by (rewrite IH by exact H; apply Z.div_pos; lia).
    rewrite IH by exact H2. rewrite IH by exact H.
    rewrite !Z.div_div by lia. f_equal.
    replace (Z.pos p~0) with (Z.pos p + Z.pos p) by lia.
    rewrite Z.pow_add_r by lia. reflexivity.
  - rewrite shr_1_m by exact H. reflexivity.
Qed.

Lemma shr_record_of_loc_m m l : shr_m (shr_record_of_loc m l) = m.
Proof. destruct l as [|[| |]]; reflexivity. Qed.

(** What the shift to the format's exponent does to a non-negative
    mantissa. *)
Lemma shr_fexp_spec m e l :
  0 <= m ->
  exists n,
    0 <= n
    /\ snd (shr_fexp 53 1024 m e l) = e + n
    /\ e + n = Z.max e (fexp 53 1024 (Zdigits2 m + e))
    /\ shr_m (fst (shr_fexp 53 1024 m e l)) = m / 2 ^ n.
Proof.
  intros H. unfold shr_fexp, shr.
  destruct (fexp 53 1024 (Zdigits2 m + e) - e) as [|p|p] eqn:E.
  - exists 0. cbn [fst snd]. rewrite shr_record_of_loc_m, Z.div_1_r. lia.
  - exists (Z.pos p). cbn [fst snd].
    rewrite iter_shr_1_m by (rewrite shr_record_of_loc_m; exact H).
    rewrite shr_record_of_loc_m. lia.
  - exists 0. cbn [fst snd]. rewrite shr_record_of_loc_m, Z.div_1_r. lia.
Qed.

Lemma round_nearest_even_bounds m l :
  m <= round_nearest_even m l <= m + 1.
Proof.
  unfold round_nearest_even. destruct l as [|[| |]]; try lia.
  destruct (Z.even m); lia.
Qed.

Lemma fexp_eq x : fexp 53 1024 x = Z.max (x - 53) (-1074).
Proof. reflexivity. Qed.

(** Rounding a non-negative value below [B] gives a non-negative float
    that is at most [B]: no overflow, and no carry past [B]. *)
Lemma binary_round_aux_below B m e l :
  0 <= B -> 0 <= m -> e <= -47 -> Zdigits2 m + e <= 6 ->
  m < B * 2 ^ (- e) ->
  binary_round_aux 53 1024 false m e l = S754_zero false
  \/ exists m3 q,
       binary_round_aux 53 1024 false m e l = S754_finite false m3 (Z.neg q)
       /\ Z.pos m3 <= B * 2 ^ Z.pos q.
Proof.
  intros HB Hm He Hd Hlt. unfold binary_round_aux.
  destruct (shr_fexp_spec m e l Hm) as (n & Hn & He1 & Hmax & Hm1).
  destruct (shr_fexp 53 1024 m e l) as [mrs1 e1]. cbn [fst snd] in *. subst e1.
  set (m2 := round_nearest_even (shr_m mrs1) (loc_of_shr_record mrs1)).
  pose proof (round_nearest_even_bounds (shr_m mrs1) (loc_of_shr_record mrs1))
    as Hm2. fold m2 in Hm2. rewrite Hm1 in Hm2.
  assert (H2n : 0 < 2 ^ n) by (apply Z.pow_pos_nonneg; lia).
  assert (Hq0 : 0 <= m / 2 ^ n) by (apply Z.div_pos; lia).
  rewrite fexp_eq in Hmax.
  assert (He1 : e + n <= -47) by lia.
  (* the first shift keeps the value below B *)
  assert (Hsplit : 2 ^ (- e) = 2 ^ (- (e + n)) * 2 ^ n).
  { rewrite <- Z.pow_add_r by lia. f_equal. lia. }
  assert (Hq1 : m / 2 ^ n < B * 2 ^ (- (e + n))).
  { apply Z.div_lt_upper_bound; [exact H2n|]. rewrite Hsplit in Hlt. lia. }
  assert (Hm2B : 0 <= m2 <= B * 2 ^ (- (e + n))) by lia.
  (* its digits *)
  assert (Hd1 : Zdigits2 (m / 2 ^ n) + (e + n) <= 6).
  { pose proof (Zdigits2_gt m Hm) as Hg. pose proof (Zdigits2_nonneg m) as Hdn.
    destruct (Z.le_gt_cases n (Zdigits2 m)) as [Hle|Hgt].
    - assert (Zdigits2 (m / 2 ^ n) <= Zdigits2 m - n); [|lia].
      apply Zdigits2_le; [lia|]. split; [exact Hq0|].
      apply Z.div_lt_upper_bound; [exact H2n|].
      rewrite <- Z.pow_add_r by lia. replace (n + (Zdigits2 m - n)) with (Zdigits2 m) by lia.
      exact Hg.
    - assert (m / 2 ^ n = 0) as ->; [|cbn [Zdigits2]; lia].
      apply Z.div_small. split; [exact Hm|].
      apply Z.lt_le_trans with (1 := Hg). apply Z.pow_le_mono_r; lia. }
  assert (Hd2 : Zdigits2 m2 + (e + n) <= 7).
  { pose proof (Zdigits2_gt _ Hq0) as Hg.
    pose proof (Zdigits2_nonneg (m / 2 ^ n)) as Hdn.
    assert (Zdigits2 m2 <= Zdigits2 (m / 2 ^ n) + 1); [|lia].
    apply Zdigits2_le; [lia|]. split; [lia|].
    rewrite Z.pow_add_r by lia. change (2 ^ 1) with 2. lia. }
  destruct (shr_fexp_spec m2 (e + n) loc_Exact (proj1 Hm2B))
    as (n2 & Hn2 & He2 & Hmax2 & Hm3).
  destruct (shr_fexp 53 1024 m2 (e + n) loc_Exact) as [mrs2 e2].
  cbn [fst snd] in *. subst e2. rewrite fexp_eq in Hmax2.
  assert (He3 : e + n + n2 <= -46) by lia.
  assert (H2n2 : 0 < 2 ^ n2) by (apply Z.pow_pos_nonneg; lia).
  assert (Hsplit2 : 2 ^ (- (e + n)) = 2 ^ (- (e + n + n2)) * 2 ^ n2).
  { rewrite <- Z.pow_add_r by lia. f_equal. lia. }
  assert (Hq3 : 0 <= m2 / 2 ^ n2 <= B * 2 ^ (- (e + n + n2))).
  { split; [apply Z.div_pos; lia|].
    apply Z.div_le_upper_bound; [exact H2n2|]. rewrite Hsplit2 in Hm2B. lia. }
  rewrite Hm3. destruct (m2 / 2 ^ n2) as [|m3|m3] eqn:E3; [left; reflexivity| |lia].
  right. destruct (e + n + n2) as [|q|q] eqn:Eq; try lia.
  exists m3, q. split.
  - replace (Z.neg q <=? 1024 - 53) with true; [reflexivity|].
    symmetry. apply Z.leb_le. lia.
  - change (- Z.neg q) with (Z.pos q) in Hq3. lia.
Qed.

(* ------------------------------------------------------------------ *)
(** ** The angle formatter in binary64 *)

Lemma of_Z_60 : B64.of_Z 60 = sixty.
Proof. vm_compute. reflexivity. Qed.

Lemma value_nonneg x : finite_nonneg x = true -> (0 <= B64.value x)%Q.
Proof.
  destruct x as [s|s| |[|] m e]; try discriminate; intros _;
    cbn [B64.value]; try apply Qle_refl.
  destruct e as [|p|p]; unfold Qle; cbn [Qnum Qden inject_Z cond_Zopp]; try lia.
Qed.

Lemma int_floor_value x :
  finite_nonneg x = true -> B64.int_floor x = Ok (Qfloor (B64.value x)).
Proof.
  destruct x as [s|s| |[|] m e]; try discriminate; intros _.
  - reflexivity.
  - destruct e as [|p|p]; cbn [B64.int_floor B64.value Qfloor inject_Z];
      rewrite ?Z.div_1_r; reflexivity.
Qed.

Lemma Qmake_minus_floor n d :
  ((n # d) - inject_Z (n / Z.pos d) == (n mod Z.pos d) # d)%Q.
Proof.
  unfold Qeq, Qminus, Qplus, Qopp, inject_Z. cbn [Qnum Qden].
  rewrite Pos2Z.inj_mul.
  pose proof (Z.div_mod n (Z.pos d)) as H.
  set (q := n / Z.pos d) in *. set (r := n mod Z.pos d) in *.
  assert (E : n = Z.pos d * q + r) by (apply H; lia). rewrite E at 1. ring.
Qed.

(** [x % 1.0] is exact for a non-negative [x]. *)
Lemma mod1_fraction x :
  finite_nonneg x = true ->
  is_fraction (B64.mod1 x)
  /\ (B64.value (B64.mod1 x)
      == B64.value x - inject_Z (Qfloor (B64.value x)))%Q.
Proof.
  destruct x as [s|s| |[|] m e]; try discriminate; intros _.
  - split; [left; reflexivity|reflexivity].
  - destruct e as [|p|p].
    + split; [left; reflexivity|].
      cbn [B64.mod1 B64.fmod1 B64.value Qfloor inject_Z].
      rewrite Z.div_1_r. unfold Qminus. rewrite Qplus_opp_r. reflexivity.
    + split; [left; reflexivity|].
      cbn [B64.mod1 B64.fmod1 B64.value Qfloor inject_Z].
      rewrite Z.div_1_r. unfold Qminus. rewrite Qplus_opp_r. reflexivity.
    + unfold B64.mod1. cbn [B64.fmod1 B64.value Qfloor cond_Zopp].
      rewrite Qmake_minus_floor.
      pose proof (Z.mod_pos_bound (Z.pos m) (Z.pos (2 ^ p)) eq_refl) as Hb.
      destruct (Z.pos m mod Z.pos (2 ^ p)) as [|r|r] eqn:Er; [| |lia].
      * split; [left; reflexivity|reflexivity].
      * split; [|reflexivity].
        right. exists r, p. split; [reflexivity|].
        rewrite <- Pos2Z.inj_pow. lia.
Qed.

(** A fraction times 60.0 does not overflow and is at most 60. *)
Lemma mul_sixty_below x :
  is_fraction x ->
  finite_nonneg (SFmul 53 1024 x sixty) = true
  /\ (B64.value (SFmul 53 1024 x sixty) <= 60)%Q.
Proof.
  intros [->|(r & p & -> & Hr)].
  - split; [reflexivity|]. vm_compute. discriminate.
  - unfold sixty. cbn [SFmul xorb].
    set (c := 8444249301319680%positive).
    assert (Hc : Z.pos (r * c) = Z.pos r * 8444249301319680) by reflexivity.
    assert (Hp : 0 < 2 ^ Z.pos p) by (apply Z.pow_pos_nonneg; lia).
    destruct (binary_round_aux_below 60 (Z.pos (r * c)) (Z.neg p + -47)
                loc_Exact) as [->|(m3 & q & -> & Hm3)].
    + lia.
    + lia.
    + lia.
    + apply Z.le_trans with (Z.pos p + 53 + (Z.neg p + -47)); [|lia].
      apply Z.add_le_mono_r. apply Zdigits2_le; [lia|]. split; [lia|].
      rewrite Hc, Z.pow_add_r by lia.
      change (2 ^ 53) with 9007199254740992. nia.
    + replace (- (Z.neg p + -47)) with (Z.pos p + 47) by lia.
      rewrite Hc, Z.pow_add_r by lia.
      change (2 ^ 47) with 140737488355328. nia.
    + split; [reflexivity|]. vm_compute. discriminate.
    + split; [reflexivity|].
      unfold Qle. cbn [B64.value Qnum Qden cond_Zopp].
      rewrite Pos2Z.inj_pow. lia.
Qed.

Lemma digit_pair f :
  0 <= f < 100 ->
  (if f mod 10 =? 0 then str_int (f / 10) else two_digits f)
  = String (digit_char (f / 10))
      (if f mod 10 =? 0 then "" else String (digit_char (f mod 10)) "").
Proof.
  intros H.
  assert (Hall : forallb
            (fun n =>
               let f := Z.of_nat n in
               String.eqb
                 (if f mod 10 =? 0 then str_int (f / 10) else two_digits f)
                 (String (digit_char (f / 10))
                    (if f mod 10 =? 0 then ""
                     else String (digit_char (f mod 10)) "")))
            (seq 0 100) = true) by (vm_compute; reflexivity).
  rewrite forallb_forall in Hall.
  specialize (Hall (Z.to_nat f)).
  rewrite Z2Nat.id in Hall by lia. cbv zeta in Hall.
  apply String.eqb_eq. apply Hall. apply in_seq. lia.
Qed.

(** The text of [k] hundredths. *)
Lemma str_hundredths_decimals k :
  0 <= k -> str_hundredths k = str_int (k / 100) ++ "." ++ decimals k.
Proof.
  intros H. unfold str_hundredths, decimals.
  rewrite Z.abs_eq by exact H.
  replace (k <? 0) with false by (symmetry; apply Z.ltb_ge; exact H).
  cbn [String.append].
  assert (H100 : 0 <= k mod 100 < 100) by (apply Z.mod_pos_bound; lia).
  rewrite (digit_pair _ H100).
  assert (E1 : k mod 100 / 10 = (k / 10) mod 10).
  { pose proof (Z.div_mod k 100). pose proof (Z.div_mod k 10).
    pose proof (Z.div_mod (k / 10) 10). pose proof (Z.div_mod (k mod 100) 10).
    pose proof (Z.mod_pos_bound k 10). pose proof (Z.mod_pos_bound (k / 10) 10).
    pose proof (Z.mod_pos_bound (k mod 100) 10). lia. }
  assert (E2 : (k mod 100) mod 10 = k mod 10).
  { pose proof (Z.div_mod k 100). pose proof (Z.div_mod k 10).
    pose proof (Z.div_mod (k / 10) 10). pose proof (Z.div_mod (k mod 100) 10).
    pose proof (Z.mod_pos_bound k 10). pose proof (Z.mod_pos_bound (k / 10) 10).
    pose proof (Z.mod_pos_bound (k mod 100) 10). lia. }
  rewrite E1, E2. reflexivity.
Qed.

Lemma str_round2_finite x :
  finite_nonneg x = true ->
  B64.str_round2 x = str_hundredths (round_hundredths (B64.value x)).
Proof. destruct x as [s|s| |[|] m e]; try discriminate; reflexivity. Qed.

(** The three parts of the text, and the floats they are taken from. *)
Lemma dms64_parts dd :
  finite_nonneg dd = true ->
  let minutes := SFmul 53 1024 (B64.mod1 dd) sixty in
  let seconds := SFmul 53 1024 (B64.mod1 minutes) sixty in
  B64.dms dd
  = Ok (str_int (Qfloor (B64.value dd)) ++ " degrees "
        ++ str_int (Qfloor (B64.value minutes)) ++ " minutes "
        ++ str_hundredths (round_hundredths (B64.value seconds))
        ++ " seconds")
  /\ finite_nonneg minutes = true /\ (B64.value minutes <= 60)%Q
  /\ finite_nonneg seconds = true /\ (B64.value seconds <= 60)%Q.
Proof.
  intros Hdd minutes seconds.
  destruct (mod1_fraction dd Hdd) as [Hf1 _].
  destruct (mul_sixty_below _ Hf1) as [Hm Hm60]. fold minutes in Hm, Hm60.
  destruct (mod1_fraction minutes Hm) as [Hf2 _].
  destruct (mul_sixty_below _ Hf2) as [Hs Hs60]. fold seconds in Hs, Hs60.
  split; [|repeat split; assumption].
  unfold B64.dms, B64.mul, B64.prec, B64.emax. rewrite of_Z_60.
  fold minutes. fold seconds.
  rewrite (int_floor_value dd Hdd), (int_floor_value minutes Hm),
    (str_round2_finite seconds Hs).
  reflexivity.
Qed.

Lemma round_hundredths_bounds x :
  (0 <= x)%Q ->
  (inject_Z (round_hundredths x) - (1 # 2) <= x * 100
   /\ x * 100 < inject_Z (round_hundredths x) + (1 # 2))%Q
  /\ 0 <= round_hundredths x.
Proof.
  intros H. rewrite (round_hundredths_nonneg x H).
  destruct (Qfloor_bounds (x * 100 + (1 # 2))) as [H1 H2].
  split; [split; lra|].
  assert (H0 : (inject_Z 0 <= x * 100 + (1 # 2))%Q)
    by (change (inject_Z 0) with 0%Q; lra).
  apply Qfloor_resp_le in H0. rewrite Qfloor_Z in H0. exact H0.
Qed.

Lemma Qfloor_upto x n : (0 <= x)%Q -> (x <= inject_Z n)%Q -> 0 <= Qfloor x <= n.
Proof.
  intros H0 Hn. split.
  - change 0 with (Qfloor (inject_Z 0)) at 1. rewrite Qfloor_Z.
    apply Qfloor_resp_le in H0. change (Qfloor 0) with 0 in H0. exact H0.
  - apply Qfloor_resp_le in Hn. rewrite Qfloor_Z in Hn. exact Hn.
Qed.

Section Formatter64.

Variable float_of_str : string -> option B64.float.

Lemma ddToDms64_float dd out s :
  B64.dms dd = Ok s ->
  B64.ddToDms float_of_str (B64.AFloat dd) out = (out, Ok (PyStr s)).
Proof.
  intros H. unfold B64.ddToDms, bind, lift_result, ret.
  cbn [B64.to_float]. rewrite H. reflexivity.
Qed.

(** C7: for every non-negative float, [ddToDms] returns
    "D degrees M minutes S.SS seconds" where D is the floor of the
    value, M the floor of the binary64 product of its fractional part
    and 60.0, and S.SS the binary64 product of that product's fractional
    part and 60.0, rounded to the nearest count K of hundredths and
    printed with its tenths digit and, unless it is 0, its hundredths
    digit.  In particular 0.0 gives "0 degrees 0 minutes 0.0 seconds"
    and 177.55702 gives "177 degrees 33 minutes 25.27 seconds". *)
Theorem ddToDms64_degrees_minutes_seconds :
  (forall dd out,
     finite_nonneg dd = true ->
     let minutes := SFmul 53 1024 (B64.mod1 dd) sixty in
     let seconds := SFmul 53 1024 (B64.mod1 minutes) sixty in
     exists D M K,
       B64.ddToDms float_of_str (B64.AFloat dd) out
       = (out, Ok (PyStr (str_int D ++ " degrees " ++ str_int M ++ " minutes "
                          ++ str_int (K / 100) ++ "." ++ decimals K
                          ++ " seconds")))
       /\ (inject_Z D <= B64.value dd /\ B64.value dd < inject_Z D + 1)%Q
       /\ (B64.value (B64.mod1 dd) == B64.value dd - inject_Z D)%Q
       /\ finite_nonneg minutes = true
       /\ (inject_Z M <= B64.value minutes
           /\ B64.value minutes < inject_Z M + 1)%Q
       /\ (B64.value (B64.mod1 minutes) == B64.value minutes - inject_Z M)%Q
       /\ finite_nonneg seconds = true
       /\ (inject_Z K - (1 # 2) <= B64.value seconds * 100
           /\ B64.value seconds * 100 < inject_Z K + (1 # 2))%Q
       /\ 0 <= M <= 60 /\ 0 <= K <= 6000)
  /\ B64.ddToDms float_of_str (B64.AFloat (S754_zero false)) []
     = ([], Ok (PyStr "0 degrees 0 minutes 0.0 seconds"))
  /\ B64.ddToDms float_of_str (B64.AFloat documented_maximum) []
     = ([], Ok (PyStr "177 degrees 33 minutes 25.27 seconds")).
Proof.
  split; [|split; apply ddToDms64_float; vm_compute; reflexivity].
  intros dd out Hdd minutes seconds.
  destruct (dms64_parts dd Hdd) as (Hdms & Hm & Hm60 & Hs & Hs60).
  fold minutes in Hdms, Hm, Hm60, Hs, Hs60. fold seconds in Hdms, Hs, Hs60.
  pose proof (value_nonneg _ Hm) as Hm0. pose proof (value_nonneg _ Hs) as Hs0.
  destruct (round_hundredths_bounds _ Hs0) as [HK HK0].
  exists (Qfloor (B64.value dd)), (Qfloor (B64.value minutes)),
    (round_hundredths (B64.value seconds)).
  split.
  - apply ddToDms64_float. rewrite Hdms.
    rewrite (str_hundredths_decimals _ HK0).
    rewrite !append_assoc. reflexivity.
  - split; [apply Qfloor_bounds|].
    split; [apply (mod1_fraction dd Hdd)|].
    split; [exact Hm|]. split; [apply Qfloor_bounds|].
    split; [apply (mod1_fraction minutes Hm)|].
    split; [exact Hs|]. split; [exact HK|].
    split; [apply Qfloor_upto; assumption|].
    split; [exact HK0|].
    rewrite (round_hundredths_nonneg _ Hs0).
    assert (H : (B64.value seconds * 100 + (1 # 2) <= inject_Z 6000 + (1 # 2))%Q)
      by (change (inject_Z 6000) with 6000%Q; lra).
    apply Qfloor_resp_le in H.
    assert (E : Qfloor (inject_Z 6000 + (1 # 2)) = 6000) by reflexivity.
    lia.
Qed.

(** X7: the seconds are rounded without a carry into the minutes: when
    the seconds value is 59.995 or more the text ends in "60.0 seconds",
    after the floor of the minutes value. *)
Theorem ddToDms64_sixty_seconds dd out :
  finite_nonneg dd = true ->
  let minutes := SFmul 53 1024 (B64.mod1 dd) sixty in
  let seconds := SFmul 53 1024 (B64.mod1 minutes) sixty in
  (11999 # 200 <= B64.value seconds)%Q ->
  B64.ddToDms float_of_str (B64.AFloat dd) out
  = (out, Ok (PyStr (str_int (Qfloor (B64.value dd)) ++ " degrees "
                     ++ str_int (Qfloor (B64.value minutes))
                     ++ " minutes 60.0 seconds"))).
Proof.
  intros Hdd minutes seconds Hge.
  destruct (dms64_parts dd Hdd) as (Hdms & Hm & Hm60 & Hs & Hs60).
  fold minutes in Hdms, Hm, Hm60, Hs, Hs60. fold seconds in Hdms, Hs, Hs60.
  apply ddToDms64_float. rewrite Hdms.
  assert (Hs0 : (0 <= B64.value seconds)%Q) by lra.
  assert (EK : round_hundredths (B64.value seconds) = 6000).
  { rewrite (round_hundredths_nonneg _ Hs0).
    apply Qfloor_unique; change (inject_Z 6000) with 6000%Q; lra. }
  rewrite EK. reflexivity.
Qed.

End Formatter64.

Lemma ddToDms64_degrees_minutes_seconds_witness :
  finite_nonneg three_tenths = true
  /\ (exists D M K,
        B64.ddToDms demo_float_of_str64 (B64.AFloat three_tenths) []
        = ([], Ok (PyStr (str_int D ++ " degrees " ++ str_int M ++ " minutes "
                          ++ str_int (K / 100) ++ "." ++ decimals K
                          ++ " seconds")))
        /\ 0 <= M <= 60 /\ 0 <= K <= 6000)
  /\ B64.ddToDms demo_float_of_str64 (B64.AFloat three_tenths) []
     = ([], Ok (PyStr "0 degrees 18 minutes 0.0 seconds")).
Proof.
  split; [reflexivity|]. split; [|vm_compute; reflexivity].
  destruct (proj1 (ddToDms64_degrees_minutes_seconds demo_float_of_str64)
              three_tenths [] eq_refl)
    as (D & M & K & H & _ & _ & _ & _ & _ & _ & _ & HM & HK).
  exists D, M, K. split; [exact H|]. split; [exact HM|exact HK].
Defined.

Lemma ddToDms64_sixty_seconds_witness :
  finite_nonneg nearly_ten = true
  /\ B64.ddToDms demo_float_of_str64 (B64.AFloat nearly_ten) []
     = ([], Ok (PyStr "9 degrees 59 minutes 60.0 seconds")).
Proof.
  split; [reflexivity|].
  apply (ddToDms64_sixty_seconds demo_float_of_str64 nearly_ten []);
    [reflexivity|].
  vm_compute. discriminate.
Defined.

(* ------------------------------------------------------------------ *)
(** ** The scan loop in binary64 *)

Section Scan64.

Variable separation : Body -> Body -> B64.float -> B64.float.
Variables a b : Body.
Variable start : B64.float.
Variables duration resolution : Z.

Let end_ : B64.float := SFadd 53 1024 start (days64 duration).
Let passes := reaches64 separation a b end_ resolution.










End Scan64.


